(** * Demon's Souls armour calculator: a model of [main.py] and its properties

    The program builds every head/torso/arms/legs combination of four armour
    catalogs, sums the resistances of each combination, scores every
    combination against the extrema of the whole set and writes the result
    as CSV.

    Modelling conventions.
    - Python objects live in a heap (a list of objects, a reference is an
      index); [Armour] and [ArmourSet] instances are records, the subclass
      holding its base-class part.
    - Python [int] is [Z]. Python [float] is idealised as a real number [R]:
      rounding, infinities, NaN and [OverflowError] are outside the model.
    - Code that can raise returns a [result]; code that touches the heap runs
      in the state-and-error monad [M]. *)

From Stdlib Require Import ZArith Reals Lra Lia.
From stdpp Require Import base list strings.

Local Open Scope Z_scope.

(** ** Outcomes of a Python computation *)

Inductive exn : Type :=
| ZeroDivisionError   (* division by zero, zero to a negative power *)
| ValueError          (* min() or max() of an empty sequence *)
| AttributeError      (* reading an attribute that was never assigned *)
| ComplexResult       (* not an exception: a negative float raised to a
                         non-integral power is a complex number in Python;
                         the model has no complex numbers and stops here *)
| BadReference.       (* not an exception: a reference that names no object
                         of the heap, which no Python program can hold *)

Inductive result (A : Type) : Type :=
| Ok (a : A)
| Raise (e : exn).
Arguments Ok {A} a.
Arguments Raise {A} e.

Definition result_bind {A B} (r : result A) (k : A -> result B) : result B :=
  match r with
  | Ok a => k a
  | Raise e => Raise e
  end.

(** ** Float arithmetic (lines 142-160 use [/] and [**]) *)

(** [a / b] on two ints: true division. Python raises [OverflowError] when
    the quotient is too large for a float; the model has no such limit, so
    it follows the code only where the quotient is in range, as it is for a
    value between the two bounds of [normalise]. *)
Definition int_truediv (a b : Z) : result R :=
  if b =? 0 then Raise ZeroDivisionError else Ok (IZR a / IZR b)%R.

(** [x / y] on floats. *)
Definition float_div (x y : R) : result R :=
  if Req_dec_T y 0 then Raise ZeroDivisionError else Ok (x / y)%R.

(** [x ** y] on floats, after CPython's [float_pow]: anything to the power
    [0.0] is [1.0]; [0.0] to a negative power raises, to a positive power is
    [0.0]; a negative base takes integral exponents only. The model follows
    the code on finite exponents and bases that are not negative, up to
    rounding and as long as the result is in range: it has no infinite
    exponent, no overflow or underflow, and it stops where Python goes on
    with a complex number. *)
Definition float_pow (x y : R) : result R :=
  if Req_dec_T y 0 then Ok 1%R
  else if Req_dec_T x 0 then
    (if Rlt_dec y 0 then Raise ZeroDivisionError else Ok 0%R)
  else if Rlt_dec 0 x then Ok (Rpower x y)
  else if Req_dec_T y (IZR (Int_part y)) then Ok (powerRZ x (Int_part y))
  else Raise ComplexResult.

(** ** The data model (lines 6-32) *)

(** A reference to an object of the heap. *)
Abbreviation loc := nat (only parsing).

(** An instance of the dataclass [Armour]. *)
Record Armour : Type := mkArmour {
  name : string;
  physical : Z;
  fire : Z;
  bleed : Z;
  poison : Z;
  plague : Z;
  total : Z
}.

(** An instance of [ArmourSet(Armour)]: the inherited fields, the list of
    references to its parts, and [weighted_total], which is declared with
    [init=False] and no default, so it does not exist until it is assigned. *)
Record ArmourSet : Type := mkArmourSet {
  as_Armour :> Armour;
  parts : list loc;
  weighted_total : option R
}.

Inductive object : Type :=
| Obj_Armour (a : Armour)
| Obj_ArmourSet (s : ArmourSet).

(** Every object is an [Armour]: attribute reads of the base class work on
    both classes. *)
Definition upcast (o : object) : Armour :=
  match o with
  | Obj_Armour a => a
  | Obj_ArmourSet s => as_Armour s
  end.

Abbreviation heap := (list object) (only parsing).

(** *** Dataclass metadata: what [dataclasses.fields] returns *)

Inductive pytype : Type := T_str | T_int | T_list.

Record Field : Type := mkField {
  f_name : string;
  f_type : pytype;
  f_init : bool;
  f_repr : bool
}.

Definition fields_Armour : list Field :=
  [ mkField "name" T_str true true;
    mkField "physical" T_int true true;
    mkField "fire" T_int true true;
    mkField "bleed" T_int true true;
    mkField "poison" T_int true true;
    mkField "plague" T_int true true;
    mkField "total" T_int false true ].

(** A subclass lists the fields of its base class first, then its own. *)
Definition fields_ArmourSet : list Field :=
  fields_Armour ++
  [ mkField "parts" T_list true false;
    mkField "weighted_total" T_int false true ].

Definition is_int (t : pytype) : bool :=
  match t with T_int => true | _ => false end.

(** *** Attribute values and [getattr] *)

Inductive value : Type :=
| V_str (s : string)
| V_int (z : Z)
| V_float (r : R)
| V_list (l : list loc).

Definition Armour_getattr (a : Armour) (f : string) : result value :=
  if String.eqb f "name" then Ok (V_str (name a))
  else if String.eqb f "physical" then Ok (V_int (physical a))
  else if String.eqb f "fire" then Ok (V_int (fire a))
  else if String.eqb f "bleed" then Ok (V_int (bleed a))
  else if String.eqb f "poison" then Ok (V_int (poison a))
  else if String.eqb f "plague" then Ok (V_int (plague a))
  else if String.eqb f "total" then Ok (V_int (total a))
  else Raise AttributeError.

Definition getattr (o : object) (f : string) : result value :=
  match o with
  | Obj_Armour a => Armour_getattr a f
  | Obj_ArmourSet s =>
      if String.eqb f "parts" then Ok (V_list (parts s))
      else if String.eqb f "weighted_total" then
        match weighted_total s with
        | Some w => Ok (V_float w)
        | None => Raise AttributeError
        end
      else Armour_getattr s f
  end.

(** *** Built-ins on lists of ints *)

(** [sum(xs)]: starts from 0 and adds from the left. *)
Definition sum (xs : list Z) : Z := fold_left Z.add xs 0.

(** [min(xs)] and [max(xs)]: [ValueError] on an empty sequence. *)
Definition py_min (xs : list Z) : result Z :=
  match xs with
  | [] => Raise ValueError
  | x :: rest => Ok (fold_left Z.min rest x)
  end.

Definition py_max (xs : list Z) : result Z :=
  match xs with
  | [] => Raise ValueError
  | x :: rest => Ok (fold_left Z.max rest x)
  end.

(** [sep.join(xs)]. *)
Definition join (sep : string) (xs : list string) : string :=
  String.concat sep xs.

(** [itertools.product] of a list of pools, as its documentation defines it:
    start from the one empty tuple and extend every tuple by every element of
    the next pool, so the last pool varies fastest. *)
Definition product {A} (pools : list (list A)) : list (list A) :=
  fold_left
    (fun acc pool => flat_map (fun x => map (fun y => x ++ [y]) pool) acc)
    pools [[]].

(** *** [Armour.__post_init__] (lines 16-23) *)

(** The int-typed attribute [f] of [self], as [__getattribute__] reads it. *)
Definition int_attribute (self : Armour) (f : Field) : option Z :=
  match Armour_getattr self (f_name f) with
  | Ok (V_int z) => Some z
  | _ => None
  end.

(** [self.total] becomes the sum of the attributes named by the fields of
    [Armour] whose type is int and whose name is not total. *)
Definition Armour__post_init__ (self : Armour) : Armour :=
  let summed :=
    List.filter
      (fun f => is_int (f_type f) && negb (String.eqb (f_name f) "total"))
      fields_Armour in
  {| name := name self;
     physical := physical self; fire := fire self; bleed := bleed self;
     poison := poison self; plague := plague self;
     total := sum (omap (int_attribute self) summed) |}.

(** The generated [__init__] of [Armour]: stores the arguments, then runs
    [__post_init__]. [total] holds nothing before that; the placeholder is
    never read, since [__post_init__] skips the field named total. *)
Definition Armour__init__ (name : string) (physical fire bleed poison plague : Z)
  : Armour :=
  Armour__post_init__ (mkArmour name physical fire bleed poison plague 0).

(** The generated [__init__] of [ArmourSet]; its [__post_init__] only calls
    the base-class one (lines 31-32). *)
Definition ArmourSet__init__ (name : string) (physical fire bleed poison plague : Z)
    (parts : list loc) : ArmourSet :=
  mkArmourSet (Armour__init__ name physical fire bleed poison plague) parts None.

(** ** The state-and-error monad *)

Definition M (A : Type) : Type := heap -> result (A * heap).

Definition M_ret {A} (a : A) : M A := fun h => Ok (a, h).

Definition M_bind {A B} (c : M A) (k : A -> M B) : M B :=
  fun h =>
    match c h with
    | Ok (a, h') => k a h'
    | Raise e => Raise e
    end.

(** A computation that cannot touch the heap. *)
Definition lift {A} (r : result A) : M A :=
  fun h =>
    match r with
    | Ok a => Ok (a, h)
    | Raise e => Raise e
    end.

Declare Scope result_scope.
Delimit Scope result_scope with result.
Bind Scope result_scope with result.
Declare Scope M_scope.
Delimit Scope M_scope with M.
Bind Scope M_scope with M.

Notation "'do' x <- c ;; k" := (result_bind c (fun x => k))
  (at level 10, x name, c at level 99, k at level 200) : result_scope.
Notation "'do' x <- c ;; k" := (M_bind c (fun x => k))
  (at level 10, x name, c at level 99, k at level 200) : M_scope.

(** A [for] loop over a list that threads the loop's variables [s]. *)
Fixpoint for_each {A S} (xs : list A) (body : S -> A -> M S) (s : S) : M S :=
  match xs with
  | [] => M_ret s
  | x :: rest => (do s' <- body s x ;; for_each rest body s')%M
  end.

(** A generator expression or comprehension: [f x for x in xs]. *)
Fixpoint for_yield {A B} (f : A -> M B) (xs : list A) : M (list B) :=
  match xs with
  | [] => M_ret []
  | x :: rest => (do y <- f x ;; do ys <- for_yield f rest ;; M_ret (y :: ys))%M
  end.

(** *** Heap primitives *)

(** A new object goes to the end of the heap; its reference is its index. *)
Definition alloc (o : object) : M loc :=
  fun h => Ok (length h, h ++ [o]).

(** Reading the base-class attributes of the object at [l]. *)
Definition load (l : loc) : M Armour :=
  fun h =>
    match h !! l with
    | Some o => Ok (upcast o, h)
    | None => Raise BadReference
    end.

(** [armour.weighted_total = w] on the [ArmourSet] at [l]. *)
Definition store_weighted_total (l : loc) (w : R) : M unit :=
  fun h =>
    match h !! l with
    | Some (Obj_ArmourSet s) =>
        Ok (tt, <[l := Obj_ArmourSet (mkArmourSet (as_Armour s) (parts s) (Some w))]> h)
    | _ => Raise BadReference
    end.

(** Reading the object at [l] as the [ArmourSet] it must be. *)
Definition load_ArmourSet (l : loc) : M ArmourSet :=
  fun h =>
    match h !! l with
    | Some (Obj_ArmourSet s) => Ok (s, h)
    | _ => Raise BadReference
    end.

(** [part.f] for a reference [part]. *)
Definition attr {A} (f : Armour -> A) (part : loc) : M A :=
  (do a <- load part ;; M_ret (f a))%M.

(** ** [get_geometric_mean] (lines 112-160) *)

(** The nested [normalise] (lines 142-145). *)
Definition normalise (value min_val max_val : Z) : result R :=
  if max_val =? min_val then Ok 0%R
  else int_truediv (value - min_val) (max_val - min_val).

(** Lines 152-157: the weighted geometric mean. Python evaluates the base of
    the outer power, both inner powers included, before [1 / total_weight].
    [total_weight] is a sum of reals here: the float sum of two weights
    beyond [float_max] is infinite and its inverse 0.0, which the model does
    not have. *)
Definition geometric_mean (norm_poison norm_plague poison_weight plague_weight : R)
  : result R :=
  let total_weight := (poison_weight + plague_weight)%R in
  (do p <- float_pow norm_poison poison_weight ;;
   do q <- float_pow norm_plague plague_weight ;;
   do e <- float_div 1 total_weight ;;
   float_pow (p * q) e)%result.

(** The weights are arguments here; the source defaults both to [1.0]. *)
Definition get_geometric_mean (armour : ArmourSet)
    (min_poison max_poison min_plague max_plague min_total max_total : Z)
    (poison_weight plague_weight : R) : result R :=
  (do norm_poison <- normalise (poison armour) min_poison max_poison ;;
   do norm_plague <- normalise (plague armour) min_plague max_plague ;;
   do norm_total <- normalise (total armour) min_total max_total ;;
   do weighted_score <-
     geometric_mean norm_poison norm_plague poison_weight plague_weight ;;
   Ok (0.5 * norm_total + 0.5 * weighted_score)%R)%result.

(** ** [make_armourset_list] (lines 60-109) *)

(** Lines 71-88: the body of the loop, which builds one [ArmourSet] from the
    four parts of [combo] and appends it to [armours]. *)
Definition combination_body (armours : list loc) (combo : list loc) : M (list loc) :=
  (do names <- for_yield (attr name) combo ;;
   let name := join " + " names in
   let parts := map (fun part => part) combo in
   do physicals <- for_yield (attr physical) combo ;;
   let physical_sum := sum physicals in
   do fires <- for_yield (attr fire) combo ;;
   let fire_sum := sum fires in
   do bleeds <- for_yield (attr bleed) combo ;;
   let bleed_sum := sum bleeds in
   do poisons <- for_yield (attr poison) combo ;;
   let poison_sum := sum poisons in
   do plagues <- for_yield (attr plague) combo ;;
   let plague_sum := sum plagues in
   do a <- alloc (Obj_ArmourSet
                    (ArmourSet__init__ name physical_sum fire_sum bleed_sum
                                       poison_sum plague_sum parts)) ;;
   M_ret (armours ++ [a]))%M.

(** Lines 68-88: the loop over [product(head, torso, arms, legs)]. *)
Definition combination_loop (head torso arms legs : list loc) : M (list loc) :=
  for_each (product [head; torso; arms; legs]) combination_body [].

(** The six extrema of lines 91-96, in the order the code computes them. *)
Record extrema : Type := mkExtrema {
  min_poison : Z; max_poison : Z;
  min_plague : Z; max_plague : Z;
  min_total : Z; max_total : Z
}.

(** Lines 91-96: each extremum is its own pass over [armours]. *)
Definition compute_extrema (armours : list loc) : M extrema :=
  (do xs <- for_yield (attr poison) armours ;;
   do min_poison <- lift (py_min xs) ;;
   do xs <- for_yield (attr poison) armours ;;
   do max_poison <- lift (py_max xs) ;;
   do xs <- for_yield (attr plague) armours ;;
   do min_plague <- lift (py_min xs) ;;
   do xs <- for_yield (attr plague) armours ;;
   do max_plague <- lift (py_max xs) ;;
   do xs <- for_yield (attr total) armours ;;
   do min_total <- lift (py_min xs) ;;
   do xs <- for_yield (attr total) armours ;;
   do max_total <- lift (py_max xs) ;;
   M_ret (mkExtrema min_poison max_poison min_plague max_plague
                    min_total max_total))%M.

(** Lines 99-107: the body of the scoring loop, with the default weights. *)
Definition assign_weighted_total (x : extrema) (_ : unit) (armour : loc) : M unit :=
  (do s <- load_ArmourSet armour ;;
   do w <- lift (get_geometric_mean s
                   (min_poison x) (max_poison x)
                   (min_plague x) (max_plague x)
                   (min_total x) (max_total x) 1 1) ;;
   store_weighted_total armour w)%M.

(** Lines 98-107: every candidate gets its score. *)
Definition weighted_total_loop (armours : list loc) (x : extrema) : M unit :=
  for_each armours (assign_weighted_total x) tt.

(** The function itself. The source reads the four catalogs from the module's
    globals; here they are arguments, and [main] passes the module's own. *)
Definition make_armourset_list (head torso arms legs : list loc) : M (list loc) :=
  (do armours <- combination_loop head torso arms legs ;;
   do x <- compute_extrema armours ;;
   do _ <- weighted_total_loop armours x ;;
   M_ret armours)%M.

(** ** [write_to_csv] (lines 163-180) *)

(** The file is modelled by the rows written to it, a row by its cells; the
    header's cells are strings. Quoting and line ends are [csv]'s business,
    and opening the file is assumed to succeed. *)
Abbreviation csv_row := (list value) (only parsing).

(** A [dict] with string keys, in insertion order. *)
Abbreviation dict := (list (string * value)) (only parsing).

Definition dict_get (d : dict) (k : string) : option value :=
  match List.find (fun kv => String.eqb (fst kv) k) d with
  | Some kv => Some (snd kv)
  | None => None
  end.

(** [DictWriter.writeheader]. *)
Definition writeheader (fieldnames : list string) (file : list csv_row)
  : list csv_row :=
  file ++ [map V_str fieldnames].

(** [DictWriter.writerow]: a key outside [fieldnames] raises [ValueError]
    (the default [extrasaction]); a missing key is written as the empty
    string (the default [restval]). *)
Definition writerow (fieldnames : list string) (row : dict) (file : list csv_row)
  : result (list csv_row) :=
  if forallb (fun kv => existsb (String.eqb (fst kv)) fieldnames) row
  then Ok (file ++ [map (fun k => default (V_str "") (dict_get row k)) fieldnames])
  else Raise ValueError.

(** A comprehension whose body can raise. *)
Fixpoint try_yield {A B} (f : A -> result B) (xs : list A) : result (list B) :=
  match xs with
  | [] => Ok []
  | x :: rest => (do y <- f x ;; do ys <- try_yield f rest ;; Ok (y :: ys))%result
  end.

(** Lines 178-180, which only read the heap. What was written before an
    exception stays in the file, so the rows come with the outcome. *)
Fixpoint write_rows (h : heap) (field_names : list string) (armours : list loc)
    (file : list csv_row) : list csv_row * result unit :=
  match armours with
  | [] => (file, Ok tt)
  | armour :: rest =>
      let written :=
        match h !! armour with
        | None => Raise BadReference
        | Some o =>
            (do row <- try_yield
                         (fun field => do v <- getattr o field ;; Ok (field, v))
                         field_names ;;
             writerow field_names row file)%result
        end in
      match written with
      | Ok file' => write_rows h field_names rest file'
      | Raise e => (file, Raise e)
      end
  end.

Definition write_to_csv (armours : list loc) (h : heap)
  : list csv_row * result unit :=
  let field_names := map f_name (List.filter f_repr fields_ArmourSet) in
  let csvfile : list csv_row := [] in
  write_rows h field_names armours (writeheader field_names csvfile).

(** ** The module's data (lines 35-57) and its entry point (lines 183-185) *)

Definition new_Armour (name : string) (physical fire bleed poison plague : Z)
  : M loc :=
  alloc (Obj_Armour (Armour__init__ name physical fire bleed poison plague)).

Record catalogs : Type := mkCatalogs {
  head : list loc;
  torso : list loc;
  arms : list loc;
  legs : list loc
}.

Definition module_data : M catalogs :=
  (do head <- for_yield (fun new => new)
       [ new_Armour "Gold Mask" 2 8 16 16 16;
         new_Armour "Three-Conered Hat" 10 5 6 6 24;
         new_Armour "Imperial Spy Hood" 12 10 8 16 0;
         new_Armour "Assassin's Mask" 10 7 6 24 0 ] ;;
   do torso <- for_yield (fun new => new)
       [ new_Armour "Old Ragged Robes" 26 13 15 15 62;
         new_Armour "Black Leather Garb" 25 17 15 62 0;
         new_Armour "Imperial Spy Clothes" 26 18 24 46 0 ] ;;
   do arms <- for_yield (fun new => new)
       [ new_Armour "Old Ragged Gloves" 16 8 9 9 37;
         new_Armour "Black Gloves" 15 10 9 37 0;
         new_Armour "Imperial Spy Gloves" 15 14 14 32 0 ] ;;
   do legs <- for_yield (fun new => new)
       [ new_Armour "Old Ragged Boots" 16 8 9 9 37;
         new_Armour "Black Boots" 15 10 9 37 0;
         new_Armour "Imperial Spy Leggings" 15 14 14 32 0 ] ;;
   M_ret (mkCatalogs head torso arms legs))%M.

(** The heap once lines 35-57 have run. *)
Definition module_heap : heap :=
  match module_data [] with
  | Ok (_, h) => h
  | Raise _ => []
  end.

(** The four catalogs once lines 35-57 have run. *)
Definition module_catalogs : catalogs :=
  match module_data [] with
  | Ok (c, _) => c
  | Raise _ => mkCatalogs [] [] [] []
  end.

(** Running the module as a script, from an empty heap: the rows of
    [out.csv], or the exception that ended the run. *)
Definition main : result (list csv_row) :=
  match (do c <- module_data ;;
         do options <- make_armourset_list (head c) (torso c) (arms c) (legs c) ;;
         M_ret options)%M [] with
  | Ok (options, h) =>
      match write_to_csv options h with
      | (file, Ok _) => Ok file
      | (_, Raise e) => Raise e
      end
  | Raise e => Raise e
  end.

(** * Specification vocabulary

    What the properties below are stated with; nothing here is code of the
    program. *)

(** [m] is the least element of [xs]. *)
Definition is_min (m : Z) (xs : list Z) : Prop :=
  m ∈ xs /\ forall y, y ∈ xs -> m <= y.

(** [m] is the greatest element of [xs]. *)
Definition is_max (m : Z) (xs : list Z) : Prop :=
  m ∈ xs /\ forall y, y ∈ xs -> y <= m.

(** The four nested loops that [product] stands for. *)
Definition nested_loops {A} (hs ts ms ls : list A) : list (list A) :=
  flat_map (fun h =>
    flat_map (fun t =>
      flat_map (fun a =>
        map (fun l => [h; t; a; l]) ls) ms) ts) hs.

(** The position of the combination of the elements at [ih], [it], [im] and
    [il] of their pools: the first pool counts slowest. *)
Definition position (nt nm nl : nat) (ih it im il : nat) : nat :=
  (((ih * nt + it) * nm + im) * nl + il)%nat.

(** The base-class view of the object at [l], if there is one. *)
Definition view (h : heap) (l : loc) : option Armour := upcast <$> h !! l.

(** The views of the objects a list of references names, dangling ones
    skipped. *)
Fixpoint peek (h : heap) (ls : list loc) : list Armour :=
  match ls with
  | [] => []
  | l :: rest =>
      match view h l with
      | Some a => a :: peek h rest
      | None => peek h rest
      end
  end.

(** The reference [l] names an object of the heap [h]. *)
Definition valid (h : heap) (l : loc) : Prop := (l < length h)%nat.

(** The [ArmourSet] the loop body builds from the parts [ps] that the
    references [combo] name. *)
Definition candidate (ps : list Armour) (combo : list loc) : ArmourSet :=
  ArmourSet__init__ (join " + " (map name ps))
    (sum (map physical ps)) (sum (map fire ps)) (sum (map bleed ps))
    (sum (map poison ps)) (sum (map plague ps)) combo.

(** The same, for the parts found in the heap [h]. *)
Definition candidate_at (h : heap) (combo : list loc) : ArmourSet :=
  candidate (peek h combo) combo.

(** What [normalise] computes, as a number. *)
Definition norm (v lo hi : Z) : R :=
  if hi =? lo then 0%R else (IZR (v - lo) / IZR (hi - lo))%R.

(** The largest finite float, (2^53 - 1) * 2^971: a sum of floats that stays
    at or below it does not overflow to infinity. *)
Definition float_max : R := IZR ((2 ^ 53 - 1) * 2 ^ 971).

(** [x] holds the least and greatest poison, plague and total of [cs]. *)
Definition extrema_of (x : extrema) (cs : list Armour) : Prop :=
  is_min (min_poison x) (map poison cs) /\ is_max (max_poison x) (map poison cs) /\
  is_min (min_plague x) (map plague cs) /\ is_max (max_plague x) (map plague cs) /\
  is_min (min_total x) (map total cs) /\ is_max (max_total x) (map total cs).

(** The score of the default weights, as a number. *)
Definition score (x : extrema) (a : Armour) : R :=
  (0.5 * norm (total a) (min_total x) (max_total x)
   + 0.5 * sqrt (norm (poison a) (min_poison x) (max_poison x)
                 * norm (plague a) (min_plague x) (max_plague x)))%R.

(** The candidate [s] once the scoring loop has passed over it. *)
Definition scored (x : extrema) (s : ArmourSet) : ArmourSet :=
  mkArmourSet (as_Armour s) (parts s) (Some (score x s)).

(** The candidate lies between the extrema on the three scored attributes. *)
Definition within (x : extrema) (a : Armour) : Prop :=
  min_poison x <= poison a <= max_poison x /\
  min_plague x <= plague a <= max_plague x /\
  min_total x <= total a <= max_total x.

(** Every reference of the four catalogs names an object of the heap. *)
Definition catalogs_valid (h : heap) (hs ts ms ls : list loc) : Prop :=
  Forall (valid h) hs /\ Forall (valid h) ts /\
  Forall (valid h) ms /\ Forall (valid h) ls.

(** The candidates the loop builds over the heap [h], in order. *)
Definition candidates (h : heap) (hs ts ms ls : list loc) : list ArmourSet :=
  map (candidate_at h) (product [hs; ts; ms; ls]).

(** The five summed attributes of [s] are the sums over the four objects its
    [parts] name in the heap [h]. *)
Definition sums_of_parts (h : heap) (s : ArmourSet) : Prop :=
  exists p1 p2 p3 p4 a1 a2 a3 a4,
    parts s = [p1; p2; p3; p4]
    /\ view h p1 = Some a1 /\ view h p2 = Some a2
    /\ view h p3 = Some a3 /\ view h p4 = Some a4
    /\ physical s = physical a1 + physical a2 + physical a3 + physical a4
    /\ fire s = fire a1 + fire a2 + fire a3 + fire a4
    /\ bleed s = bleed a1 + bleed a2 + bleed a3 + bleed a4
    /\ poison s = poison a1 + poison a2 + poison a3 + poison a4
    /\ plague s = plague a1 + plague a2 + plague a3 + plague a4.

(** [o'] is [o] up to the [weighted_total] of an [ArmourSet]. *)
Definition same_but_weighted_total (o o' : object) : Prop :=
  match o, o' with
  | Obj_Armour a, Obj_Armour a' => a = a'
  | Obj_ArmourSet s, Obj_ArmourSet s' =>
      as_Armour s = as_Armour s' /\ parts s = parts s'
  | _, _ => False
  end.

(** The cells of the row of a scored [ArmourSet]. *)
Definition cells (s : ArmourSet) (w : R) : csv_row :=
  [ V_str (name s); V_int (physical s); V_int (fire s); V_int (bleed s);
    V_int (poison s); V_int (plague s); V_int (total s); V_float w ].

(** [row] is the row of the scored [ArmourSet] at [l]. *)
Definition row_of (h : heap) (l : loc) (row : csv_row) : Prop :=
  exists s w,
    h !! l = Some (Obj_ArmourSet s) /\ weighted_total s = Some w /\ row = cells s w.

(** The object at [l] is an [ArmourSet] that has its [weighted_total]. *)
Definition is_scored (h : heap) (l : loc) : Prop :=
  exists s w, h !! l = Some (Obj_ArmourSet s) /\ weighted_total s = Some w.

(** * Properties *)

(** ** Built-ins *)

Lemma sum_four (a b c d : Z) : sum [a; b; c; d] = a + b + c + d.
Proof. unfold sum. simpl. lia. Qed.

Lemma fold_min_spec (xs : list Z) (x : Z) :
  let m := fold_left Z.min xs x in
  (m = x \/ m ∈ xs) /\ m <= x /\ (forall y, y ∈ xs -> m <= y).
Proof.
  revert x. induction xs as [|z xs IH]; intros x; simpl.
  - split; [by left|]. split; [lia|]. intros y Hy. by apply not_elem_of_nil in Hy.
  - destruct (IH (Z.min x z)) as (Hin & Hle & Hall).
    split; [|split].
    + destruct Hin as [->|Hin]; [|right; by apply elem_of_cons; right].
      destruct (Z.min_spec x z) as [[_ ->]|[_ ->]]; [by left|right; apply elem_of_cons; by left].
    + lia.
    + intros y Hy. apply elem_of_cons in Hy as [->|Hy]; [lia|by apply Hall].
Qed.

Lemma fold_max_spec (xs : list Z) (x : Z) :
  let m := fold_left Z.max xs x in
  (m = x \/ m ∈ xs) /\ x <= m /\ (forall y, y ∈ xs -> y <= m).
Proof.
  revert x. induction xs as [|z xs IH]; intros x; simpl.
  - split; [by left|]. split; [lia|]. intros y Hy. by apply not_elem_of_nil in Hy.
  - destruct (IH (Z.max x z)) as (Hin & Hle & Hall).
    split; [|split].
    + destruct Hin as [->|Hin]; [|right; by apply elem_of_cons; right].
      destruct (Z.max_spec x z) as [[_ ->]|[_ ->]]; [right; apply elem_of_cons; by left|by left].
    + lia.
    + intros y Hy. apply elem_of_cons in Hy as [->|Hy]; [lia|by apply Hall].
Qed.

Lemma py_min_spec (xs : list Z) :
  xs <> [] -> exists m, py_min xs = Ok m /\ is_min m xs.
Proof.
  destruct xs as [|x xs]; [done|]. intros _.
  exists (fold_left Z.min xs x). split; [done|].
  destruct (fold_min_spec xs x) as (Hin & Hle & Hall). split.
  - apply elem_of_cons. destruct Hin; [by left|by right].
  - intros y Hy. apply elem_of_cons in Hy as [->|Hy]; [done|by apply Hall].
Qed.

Lemma py_max_spec (xs : list Z) :
  xs <> [] -> exists m, py_max xs = Ok m /\ is_max m xs.
Proof.
  destruct xs as [|x xs]; [done|]. intros _.
  exists (fold_left Z.max xs x). split; [done|].
  destruct (fold_max_spec xs x) as (Hin & Hle & Hall). split.
  - apply elem_of_cons. destruct Hin; [by left|by right].
  - intros y Hy. apply elem_of_cons in Hy as [->|Hy]; [done|by apply Hall].
Qed.

(** ** [itertools.product] of four pools *)

Lemma flat_map_flat_map {A B C} (f : B -> list C) (g : A -> list B) (l : list A) :
  flat_map f (flat_map g l) = flat_map (fun x => flat_map f (g x)) l.
Proof.
  induction l as [|x l IH]; simpl; [done|].
  by rewrite flat_map_app, IH.
Qed.

Lemma flat_map_map {A B C} (f : B -> list C) (g : A -> B) (l : list A) :
  flat_map f (map g l) = flat_map (fun x => f (g x)) l.
Proof. induction l as [|x l IH]; simpl; [done|]. by rewrite IH. Qed.

Lemma product_four {A} (hs ts ms ls : list A) :
  product [hs; ts; ms; ls] = nested_loops hs ts ms ls.
Proof.
  unfold product, nested_loops. simpl. rewrite app_nil_r.
  rewrite !flat_map_flat_map, flat_map_map.
  apply flat_map_ext. intros h.
  rewrite flat_map_map.
  apply flat_map_ext. intros t.
  rewrite flat_map_map.
  apply flat_map_ext. intros a. done.
Qed.

Lemma lookup_map {A B} (f : A -> B) (l : list A) (i : nat) :
  map f l !! i = f <$> l !! i.
Proof. revert i. induction l as [|x l IH]; intros [|i]; simpl; auto. Qed.

Lemma flat_map_const_length {A B} (f : A -> list B) (n : nat) (l : list A) :
  (forall x, length (f x) = n) -> length (flat_map f l) = (length l * n)%nat.
Proof.
  intros Hn. induction l as [|x l IH]; simpl; [done|].
  rewrite length_app, IH, Hn. done.
Qed.

Lemma lookup_flat_map_const {A B} (f : A -> list B) (n : nat) (l : list A)
    (i j : nat) (x : A) :
  (forall x, length (f x) = n) ->
  l !! i = Some x -> (j < n)%nat ->
  flat_map f l !! (i * n + j)%nat = f x !! j.
Proof.
  intros Hn. revert i. induction l as [|y l IH]; intros i Hi Hj; [done|].
  destruct i as [|i]; simpl in *.
  - inversion Hi; subst. apply lookup_app_l. by rewrite Hn.
  - rewrite lookup_app_r by (rewrite Hn; lia).
    rewrite Hn. replace (n + i * n + j - n)%nat with (i * n + j)%nat by lia.
    by apply IH.
Qed.

Lemma nested_loops_length {A} (hs ts ms ls : list A) :
  length (nested_loops hs ts ms ls)
  = (length hs * length ts * length ms * length ls)%nat.
Proof.
  unfold nested_loops.
  rewrite (flat_map_const_length _ (length ts * (length ms * length ls))); [lia|].
  intros h. rewrite (flat_map_const_length _ (length ms * length ls)); [lia|].
  intros t. rewrite (flat_map_const_length _ (length ls)); [lia|].
  intros a. by rewrite length_map.
Qed.

Lemma nested_loops_lookup {A} (hs ts ms ls : list A) ih it im il h t a l :
  hs !! ih = Some h -> ts !! it = Some t -> ms !! im = Some a -> ls !! il = Some l ->
  nested_loops hs ts ms ls !! position (length ts) (length ms) (length ls) ih it im il
  = Some [h; t; a; l].
Proof.
  intros Hh Ht Ha Hl. unfold nested_loops, position.
  pose proof (lookup_lt_Some _ _ _ Ht) as Lt.
  pose proof (lookup_lt_Some _ _ _ Ha) as La.
  pose proof (lookup_lt_Some _ _ _ Hl) as Ll.
  set (nt := length ts) in *. set (nm := length ms) in *. set (nl := length ls) in *.
  replace (((ih * nt + it) * nm + im) * nl + il)%nat
    with (ih * (nt * (nm * nl)) + (it * (nm * nl) + (im * nl + il)))%nat by lia.
  assert (im * nl + il < nm * nl)%nat as B1 by nia.
  assert (it * (nm * nl) + (im * nl + il) < nt * (nm * nl))%nat as B2 by nia.
  rewrite (lookup_flat_map_const _ (nt * (nm * nl)) _ _ _ h); [|intros x|done|done].
  2:{ rewrite (flat_map_const_length _ (nm * nl)); [done|].
      intros y. rewrite (flat_map_const_length _ nl); [done|].
      intros z. by rewrite length_map. }
  rewrite (lookup_flat_map_const _ (nm * nl) _ _ _ t); [|intros x|done|done].
  2:{ rewrite (flat_map_const_length _ nl); [done|].
      intros z. by rewrite length_map. }
  rewrite (lookup_flat_map_const _ nl _ _ _ a); [|intros x|done|done].
  2:{ by rewrite length_map. }
  by rewrite lookup_map, Hl.
Qed.

Lemma nested_loops_elem {A} (hs ts ms ls : list A) (c : list A) :
  c ∈ nested_loops hs ts ms ls ->
  exists h t a l, c = [h; t; a; l] /\ h ∈ hs /\ t ∈ ts /\ a ∈ ms /\ l ∈ ls.
Proof.
  unfold nested_loops. rewrite list_elem_of_In.
  intros (h & Hh & Hc)%in_flat_map.
  apply in_flat_map in Hc as (t & Ht & Hc).
  apply in_flat_map in Hc as (a & Ha & Hc).
  apply in_map_iff in Hc as (l & <- & Hl).
  exists h, t, a, l. rewrite !list_elem_of_In. done.
Qed.

Lemma product_length {A} (hs ts ms ls : list A) :
  length (product [hs; ts; ms; ls])
  = (length hs * length ts * length ms * length ls)%nat.
Proof. rewrite product_four. apply nested_loops_length. Qed.

Lemma product_empty {A} (hs ts ms ls : list A) :
  hs = [] \/ ts = [] \/ ms = [] \/ ls = [] -> product [hs; ts; ms; ls] = [].
Proof.
  intros He. apply length_zero_iff_nil. rewrite product_length.
  destruct He as [-> | [-> | [-> | ->]]]; simpl; lia.
Qed.

Lemma product_nonempty {A} (hs ts ms ls : list A) :
  hs <> [] -> ts <> [] -> ms <> [] -> ls <> [] -> product [hs; ts; ms; ls] <> [].
Proof.
  intros H1 H2 H3 H4 He. apply (f_equal length) in He.
  rewrite product_length in He. simpl in He.
  destruct hs, ts, ms, ls; done.
Qed.

(** ** Constructors *)

Lemma Armour__init__fields n p f b po pl :
  let a := Armour__init__ n p f b po pl in
  name a = n /\ physical a = p /\ fire a = f /\ bleed a = b /\
  poison a = po /\ plague a = pl /\ total a = p + f + b + po + pl.
Proof. repeat split. Qed.

Lemma candidate_fields (ps : list Armour) (combo : list loc) :
  let s := candidate ps combo in
  name s = join " + " (map name ps)
  /\ physical s = sum (map physical ps) /\ fire s = sum (map fire ps)
  /\ bleed s = sum (map bleed ps) /\ poison s = sum (map poison ps)
  /\ plague s = sum (map plague ps)
  /\ total s = physical s + fire s + bleed s + poison s + plague s
  /\ parts s = combo /\ weighted_total s = None.
Proof. repeat split. Qed.

(** ** Reading the heap *)

Lemma view_app (h h' : heap) (l : loc) :
  valid h l -> view (h ++ h') l = view h l.
Proof. intros Hl. unfold view. by rewrite lookup_app_l. Qed.

Lemma peek_app (h h' : heap) (ls : list loc) :
  Forall (valid h) ls -> peek (h ++ h') ls = peek h ls.
Proof.
  induction 1 as [|l ls Hl _ IH]; [done|].
  simpl. by rewrite view_app, IH.
Qed.

Lemma peek_four (h : heap) (p1 p2 p3 p4 : loc) :
  valid h p1 -> valid h p2 -> valid h p3 -> valid h p4 ->
  exists a1 a2 a3 a4,
    view h p1 = Some a1 /\ view h p2 = Some a2 /\
    view h p3 = Some a3 /\ view h p4 = Some a4 /\
    peek h [p1; p2; p3; p4] = [a1; a2; a3; a4].
Proof.
  intros V1 V2 V3 V4. unfold valid in *.
  destruct (lookup_lt_is_Some_2 h p1 V1) as [o1 E1].
  destruct (lookup_lt_is_Some_2 h p2 V2) as [o2 E2].
  destruct (lookup_lt_is_Some_2 h p3 V3) as [o3 E3].
  destruct (lookup_lt_is_Some_2 h p4 V4) as [o4 E4].
  exists (upcast o1), (upcast o2), (upcast o3), (upcast o4).
  simpl. unfold view. rewrite E1, E2, E3, E4. done.
Qed.

Lemma peek_elem (h : heap) (ls : list loc) (l : loc) (o : object) :
  l ∈ ls -> h !! l = Some o -> upcast o ∈ peek h ls.
Proof.
  intros Hl Ho. induction ls as [|l' ls IH]; [by apply not_elem_of_nil in Hl|].
  apply elem_of_cons in Hl as [<-|Hl]; simpl; unfold view.
  - rewrite Ho. simpl. apply elem_of_cons. by left.
  - destruct (h !! l') as [o'|]; simpl; [apply elem_of_cons; right|]; by apply IH.
Qed.

Lemma peek_fresh (objs : list object) :
  forall pre : heap,
  peek (pre ++ objs) (seq (length pre) (length objs)) = map upcast objs.
Proof.
  induction objs as [|o objs IH]; intros pre; [done|].
  simpl. unfold view. rewrite list_lookup_middle by done. simpl. f_equal.
  specialize (IH (pre ++ [o])).
  rewrite <- app_assoc, length_app in IH. simpl in IH.
  by rewrite Nat.add_1_r in IH.
Qed.

Lemma valid_fresh (pre objs : list object) :
  Forall (valid (pre ++ objs)) (seq (length pre) (length objs)).
Proof.
  apply Forall_forall. intros l Hl%list_elem_of_In%in_seq.
  unfold valid. rewrite length_app. lia.
Qed.

Lemma for_yield_attr {A} (f : Armour -> A) (ls : list loc) (h : heap) :
  Forall (valid h) ls ->
  for_yield (attr f) ls h = Ok (map f (peek h ls), h).
Proof.
  induction 1 as [|l ls Hl _ IH]; [done|].
  simpl. unfold M_bind at 1. unfold attr at 1, M_bind at 1, load.
  unfold view.
  destruct (lookup_lt_is_Some_2 h l Hl) as [o ->]. simpl.
  unfold M_bind. by rewrite IH.
Qed.

Lemma bind_for_yield_attr {A B} (f : Armour -> A) (ls : list loc) (h : heap)
    (k : list A -> M B) :
  Forall (valid h) ls ->
  M_bind (for_yield (attr f) ls) k h = k (map f (peek h ls)) h.
Proof. intros Hv. unfold M_bind. by rewrite for_yield_attr. Qed.

Lemma bind_lift_Ok {A B} (r : result A) (a : A) (k : A -> M B) (h : heap) :
  r = Ok a -> M_bind (lift r) k h = k a h.
Proof. by intros ->. Qed.

(** ** The combination loop *)

Lemma combination_body_spec (armours combo : list loc) (h : heap) :
  Forall (valid h) combo ->
  combination_body armours combo h
  = Ok (armours ++ [length h], h ++ [Obj_ArmourSet (candidate_at h combo)]).
Proof.
  intros Hv. unfold combination_body, M_bind.
  rewrite !for_yield_attr by done. unfold alloc, M_ret.
  by rewrite map_id.
Qed.

Lemma for_each_combinations (combos : list (list loc)) :
  forall (armours : list loc) (h : heap),
  Forall (Forall (valid h)) combos ->
  for_each combos combination_body armours h
  = Ok (armours ++ seq (length h) (length combos),
        h ++ map (fun c => Obj_ArmourSet (candidate_at h c)) combos).
Proof.
  induction combos as [|c combos IH]; intros armours h Hv; simpl.
  - unfold M_ret. by rewrite !app_nil_r.
  - apply Forall_cons in Hv as [Hc Hv].
    unfold M_bind. rewrite combination_body_spec by done.
    rewrite IH.
    + rewrite length_app. simpl. rewrite Nat.add_1_r.
      rewrite <- !app_assoc. simpl. f_equal. f_equal. f_equal. f_equal.
      apply map_ext_in. intros c' Hc'. f_equal. unfold candidate_at.
      rewrite peek_app; [done|].
      rewrite Forall_forall in Hv. apply Hv. by apply list_elem_of_In.
    + eapply Forall_impl; [exact Hv|]. intros c' Hc'.
      eapply Forall_impl; [exact Hc'|]. intros l Hl. unfold valid in *.
      rewrite length_app. lia.
Qed.

Lemma combination_loop_empty (h : heap) (hs ts ms ls : list loc) :
  hs = [] \/ ts = [] \/ ms = [] \/ ls = [] ->
  combination_loop hs ts ms ls h = Ok ([], h).
Proof.
  intros He. apply product_empty in He.
  unfold combination_loop. by rewrite He.
Qed.

(** ** Float arithmetic and [normalise] *)

(** Cases on every comparison of reals in the goal, closing what linear
    arithmetic closes. *)
Ltac real_cases :=
  repeat match goal with
         | |- context [Req_dec_T ?a ?b] => destruct (Req_dec_T a b)
         | |- context [Rlt_dec ?a ?b] => destruct (Rlt_dec a b)
         end;
  try done; try lra.

Lemma float_pow_zero_exponent (x : R) : float_pow x 0 = Ok 1%R.
Proof. unfold float_pow. real_cases. Qed.

Lemma float_pow_zero_base (y : R) : (0 < y)%R -> float_pow 0 y = Ok 0%R.
Proof. intros Hy. unfold float_pow. real_cases. Qed.

Lemma float_pow_positive (x y : R) :
  (0 < x)%R -> y <> 0%R -> float_pow x y = Ok (Rpower x y).
Proof. intros Hx Hy. unfold float_pow. real_cases. Qed.

Lemma float_pow_one (x : R) : float_pow x 1 = Ok x.
Proof.
  unfold float_pow.
  destruct (Req_dec_T 1 0); [lra|].
  destruct (Req_dec_T x 0) as [->|Hx].
  { destruct (Rlt_dec 1 0); [lra|done]. }
  destruct (Rlt_dec 0 x) as [Hp|Hn].
  { by rewrite Rpower_1. }
  assert (Int_part 1 = 1) as ->.
  { symmetry. apply Int_part_spec. lra. }
  destruct (Req_dec_T 1 1); [|done].
  f_equal. simpl. lra.
Qed.

Lemma float_pow_half (x e : R) :
  (0 <= x)%R -> e = (/ 2)%R -> float_pow x e = Ok (sqrt x).
Proof.
  intros Hx ->. destruct (Req_dec_T x 0) as [->|Hx0].
  - rewrite float_pow_zero_base by lra. by rewrite sqrt_0.
  - rewrite float_pow_positive by lra. by rewrite Rpower_sqrt by lra.
Qed.

Lemma float_pow_nonneg (x y : R) :
  (0 <= x)%R -> (0 <= y)%R -> exists r, float_pow x y = Ok r /\ (0 <= r)%R.
Proof.
  intros Hx Hy. destruct (Req_dec_T y 0) as [->|Hy0].
  { exists 1%R. rewrite float_pow_zero_exponent. split; [done|lra]. }
  destruct (Req_dec_T x 0) as [->|Hx0].
  { exists 0%R. rewrite float_pow_zero_base by lra. split; [done|lra]. }
  exists (Rpower x y). rewrite float_pow_positive by lra.
  split; [done|]. left. apply exp_pos.
Qed.

Lemma float_div_nonzero (x y : R) : y <> 0%R -> float_div x y = Ok (x / y)%R.
Proof. intros Hy. unfold float_div. real_cases. Qed.

Lemma float_div_zero (x : R) : float_div x 0 = Raise ZeroDivisionError.
Proof. unfold float_div. real_cases. Qed.

Create Rewrite HintDb pyfloat.
#[global] Hint Rewrite float_pow_zero_exponent float_pow_one : pyfloat.

Lemma normalise_norm (v lo hi : Z) : normalise v lo hi = Ok (norm v lo hi).
Proof.
  unfold normalise, norm, int_truediv.
  destruct (Z.eqb_spec hi lo) as [->|Hne]; [done|].
  destruct (Z.eqb_spec (hi - lo) 0); [lia|done].
Qed.

Lemma norm_degenerate (v lo : Z) : norm v lo lo = 0%R.
Proof. unfold norm. by rewrite Z.eqb_refl. Qed.

Lemma norm_proper (v lo hi : Z) :
  hi <> lo -> norm v lo hi = ((IZR v - IZR lo) / (IZR hi - IZR lo))%R.
Proof.
  intros Hne. unfold norm. destruct (Z.eqb_spec hi lo); [done|].
  by rewrite !minus_IZR.
Qed.

Lemma norm_range (v lo hi : Z) :
  lo <= v <= hi -> (0 <= norm v lo hi <= 1)%R.
Proof.
  intros [Hlo Hhi]. unfold norm.
  destruct (Z.eqb_spec hi lo) as [->|Hne]; [lra|].
  assert (0 < IZR (hi - lo))%R as Hd by (apply IZR_lt; lia).
  assert (0 <= IZR (v - lo))%R as Hn by (apply IZR_le; lia).
  assert (IZR (v - lo) <= IZR (hi - lo))%R as Hb by (apply IZR_le; lia).
  split.
  - apply Rmult_le_pos; [done|]. left. by apply Rinv_0_lt_compat.
  - apply (Rmult_le_reg_r (IZR (hi - lo))); [done|].
    unfold Rdiv. rewrite Rmult_assoc, Rinv_l by lra. lra.
Qed.

Lemma norm_formula (v lo hi : Z) :
  norm v lo hi
  = (if hi =? lo then 0 else (IZR v - IZR lo) / (IZR hi - IZR lo))%R.
Proof. unfold norm. destruct (hi =? lo); [done|]. by rewrite !minus_IZR. Qed.

(** ** The weighted geometric mean *)

Lemma geometric_mean_default (p q : R) :
  (0 <= p * q)%R -> geometric_mean p q 1 1 = Ok (sqrt (p * q)).
Proof.
  intros Hpq. unfold geometric_mean.
  autorewrite with pyfloat. simpl.
  rewrite float_div_nonzero by lra. simpl.
  apply float_pow_half; [done|lra].
Qed.

Lemma geometric_mean_zero_weights (p q : R) :
  geometric_mean p q 0 0 = Raise ZeroDivisionError.
Proof.
  unfold geometric_mean. rewrite !float_pow_zero_exponent. simpl.
  replace (0 + 0)%R with 0%R by lra. by rewrite float_div_zero.
Qed.

Lemma get_geometric_mean_default (s : ArmourSet) (x : extrema) :
  let np := norm (poison s) (min_poison x) (max_poison x) in
  let nq := norm (plague s) (min_plague x) (max_plague x) in
  let nt := norm (total s) (min_total x) (max_total x) in
  (0 <= np * nq)%R ->
  get_geometric_mean s (min_poison x) (max_poison x) (min_plague x) (max_plague x)
                     (min_total x) (max_total x) 1 1
  = Ok (0.5 * nt + 0.5 * sqrt (np * nq))%R.
Proof.
  intros np nq nt Hpq. unfold get_geometric_mean.
  rewrite !normalise_norm. simpl.
  fold np nq nt. by rewrite geometric_mean_default.
Qed.

Lemma score_range (np nq nt : R) :
  (0 <= np <= 1)%R -> (0 <= nq <= 1)%R -> (0 <= nt <= 1)%R ->
  (0 <= 0.5 * nt + 0.5 * sqrt (np * nq) <= 1)%R.
Proof.
  intros Hp Hq Ht.
  assert (0 <= sqrt (np * nq))%R by apply sqrt_pos.
  assert (sqrt (np * nq) <= 1)%R.
  { rewrite <- sqrt_1. apply sqrt_le_1_alt. nra. }
  lra.
Qed.

Lemma exp_le (x y : R) : (x <= y)%R -> (exp x <= exp y)%R.
Proof. intros [Hlt| ->]; [left; by apply exp_increasing|right; done]. Qed.

Lemma ln_le (x y : R) : (0 < x)%R -> (x <= y)%R -> (ln x <= ln y)%R.
Proof. intros Hx [Hlt| ->]; [left; by apply ln_increasing|right; done]. Qed.

Lemma float_pow_exp (x y : R) :
  (0 < x)%R -> float_pow x y = Ok (exp (y * ln x)).
Proof.
  intros Hx. destruct (Req_dec_T y 0) as [->|Hy].
  - rewrite float_pow_zero_exponent, Rmult_0_l, exp_0. done.
  - by rewrite float_pow_positive.
Qed.

Lemma float_pow_unit_interval (x y : R) :
  (0 <= x <= 1)%R -> (0 <= y)%R ->
  exists r, float_pow x y = Ok r /\ (0 <= r <= 1)%R.
Proof.
  intros [Hx0 Hx1] Hy. destruct (Req_dec_T y 0) as [->|Hy0].
  { exists 1%R. rewrite float_pow_zero_exponent. split; [done|lra]. }
  destruct (Req_dec_T x 0) as [->|Hx].
  { exists 0%R. rewrite float_pow_zero_base by lra. split; [done|lra]. }
  exists (exp (y * ln x)). rewrite float_pow_exp by lra. split; [done|].
  split; [left; apply exp_pos|].
  rewrite <- exp_0. apply exp_le.
  assert (ln x <= 0)%R by (rewrite <- ln_1; apply ln_le; lra). nra.
Qed.

Lemma geometric_mean_unit_interval (p q wp wq : R) :
  (0 <= p <= 1)%R -> (0 <= q <= 1)%R ->
  (0 <= wp)%R -> (0 <= wq)%R -> ~ (wp = 0%R /\ wq = 0%R) ->
  exists g, geometric_mean p q wp wq = Ok g /\ (0 <= g <= 1)%R.
Proof.
  intros Hp Hq Hwp Hwq Hnz. unfold geometric_mean.
  destruct (float_pow_unit_interval p wp Hp Hwp) as (a & -> & Ha).
  destruct (float_pow_unit_interval q wq Hq Hwq) as (b & -> & Hb).
  assert (0 < wp + wq)%R as Hw.
  { destruct (Req_dec_T wp 0) as [->|?]; destruct (Req_dec_T wq 0) as [->|?];
      try lra; exfalso; by apply Hnz. }
  simpl. rewrite float_div_nonzero by lra. simpl.
  apply float_pow_unit_interval; [nra|].
  unfold Rdiv. rewrite Rmult_1_l. left. by apply Rinv_0_lt_compat.
Qed.

(** ** The extrema *)

Lemma compute_extrema_spec (pre objs : list object) :
  objs <> [] ->
  exists x,
    compute_extrema (seq (length pre) (length objs)) (pre ++ objs)
    = Ok (x, pre ++ objs)
    /\ extrema_of x (map upcast objs).
Proof.
  intros Hne.
  assert (forall f : Armour -> Z, map f (map upcast objs) <> []) as Hf.
  { intros f. destruct objs; [done|]. simpl. done. }
  destruct (py_min_spec _ (Hf poison)) as (m1 & E1 & H1).
  destruct (py_max_spec _ (Hf poison)) as (m2 & E2 & H2).
  destruct (py_min_spec _ (Hf plague)) as (m3 & E3 & H3).
  destruct (py_max_spec _ (Hf plague)) as (m4 & E4 & H4).
  destruct (py_min_spec _ (Hf total)) as (m5 & E5 & H5).
  destruct (py_max_spec _ (Hf total)) as (m6 & E6 & H6).
  exists (mkExtrema m1 m2 m3 m4 m5 m6).
  split; [|exact (conj H1 (conj H2 (conj H3 (conj H4 (conj H5 H6)))))].
  unfold compute_extrema.
  repeat (rewrite bind_for_yield_attr by apply valid_fresh;
          rewrite peek_fresh; erewrite bind_lift_Ok by eassumption).
  done.
Qed.

Lemma extrema_of_within (x : extrema) (cs : list Armour) (a : Armour) :
  extrema_of x cs -> a ∈ cs -> within x a.
Proof.
  intros (H1 & H2 & H3 & H4 & H5 & H6) Ha.
  assert (forall f : Armour -> Z, f a ∈ map f cs) as Hf.
  { intros f. apply list_elem_of_In, in_map, list_elem_of_In, Ha. }
  unfold within.
  pose proof (proj2 H1 _ (Hf poison)). pose proof (proj2 H2 _ (Hf poison)).
  pose proof (proj2 H3 _ (Hf plague)). pose proof (proj2 H4 _ (Hf plague)).
  pose proof (proj2 H5 _ (Hf total)). pose proof (proj2 H6 _ (Hf total)).
  lia.
Qed.

Lemma get_geometric_mean_within (x : extrema) (s : ArmourSet) :
  within x s ->
  get_geometric_mean s (min_poison x) (max_poison x) (min_plague x) (max_plague x)
                     (min_total x) (max_total x) 1 1
  = Ok (score x s)
  /\ (0 <= score x s <= 1)%R.
Proof.
  intros (Hp & Hq & Ht).
  pose proof (norm_range _ _ _ Hp) as Rp.
  pose proof (norm_range _ _ _ Hq) as Rq.
  pose proof (norm_range _ _ _ Ht) as Rt.
  split.
  - apply get_geometric_mean_default. nra.
  - by apply score_range.
Qed.

(** ** The scoring loop *)

Lemma weighted_total_loop_fresh (x : extrema) (cs : list ArmourSet) :
  forall pre : heap,
  Forall (fun s : ArmourSet => within x s) cs ->
  weighted_total_loop (seq (length pre) (length cs)) x (pre ++ map Obj_ArmourSet cs)
  = Ok (tt, pre ++ map (fun s => Obj_ArmourSet (scored x s)) cs).
Proof.
  unfold weighted_total_loop.
  induction cs as [|c cs IH]; intros pre Hw; [done|].
  apply Forall_cons in Hw as [Hc Hw].
  simpl. unfold M_bind at 1. unfold assign_weighted_total, M_bind at 1 2.
  unfold load_ArmourSet, store_weighted_total.
  rewrite list_lookup_middle by done.
  destruct (get_geometric_mean_within x c Hc) as [-> _]. simpl.
  rewrite list_lookup_middle by done.
  rewrite insert_app_r_alt by done. rewrite Nat.sub_diag. simpl.
  specialize (IH (pre ++ [Obj_ArmourSet (scored x c)]) Hw).
  rewrite <- !app_assoc, length_app in IH. simpl in IH.
  rewrite Nat.add_1_r in IH. exact IH.
Qed.

Lemma same_but_weighted_total_refl (o : object) : same_but_weighted_total o o.
Proof. by destruct o. Qed.

Lemma same_but_weighted_total_trans (o1 o2 o3 : object) :
  same_but_weighted_total o1 o2 -> same_but_weighted_total o2 o3 ->
  same_but_weighted_total o1 o3.
Proof.
  destruct o1, o2, o3; simpl; try done; [congruence|].
  intros [-> ->] [-> ->]. done.
Qed.

Lemma assign_weighted_total_inv (x : extrema) (l : loc) (h h' : heap) (u : unit) :
  assign_weighted_total x tt l h = Ok (u, h') ->
  exists s w,
    h !! l = Some (Obj_ArmourSet s)
    /\ h' = <[l := Obj_ArmourSet (mkArmourSet (as_Armour s) (parts s) (Some w))]> h.
Proof.
  unfold assign_weighted_total, M_bind, load_ArmourSet, store_weighted_total, lift.
  destruct (h !! l) as [[a|s]|] eqn:El; try discriminate.
  destruct (get_geometric_mean _ _ _ _ _ _ _ _ _) as [w|e]; [|discriminate].
  rewrite El. intros [= _ <-]. by exists s, w.
Qed.

Lemma weighted_total_loop_frame (armours : list loc) (x : extrema) :
  forall h h' : heap,
  weighted_total_loop armours x h = Ok (tt, h') ->
  length h' = length h
  /\ (forall l, l ∉ armours -> h' !! l = h !! l)
  /\ (forall l o, h !! l = Some o ->
      exists o', h' !! l = Some o' /\ same_but_weighted_total o o').
Proof.
  unfold weighted_total_loop.
  induction armours as [|a armours IH]; intros h h' Hrun; simpl in Hrun.
  { inversion Hrun; subst. split; [done|]. split; [done|].
    intros l o Ho. exists o. split; [done|apply same_but_weighted_total_refl]. }
  unfold M_bind in Hrun.
  destruct (assign_weighted_total x tt a h) as [[[] h1]|e] eqn:Ea; [|discriminate].
  apply assign_weighted_total_inv in Ea as (s & w & Hs & ->).
  destruct (IH _ _ Hrun) as (Hlen & Hout & Hin).
  rewrite length_insert in Hlen.
  split; [done|]. split.
  - intros l Hl. apply not_elem_of_cons in Hl as [Hne Hl].
    rewrite Hout by done. by apply list_lookup_insert_ne.
  - intros l o Ho. destruct (decide (l = a)) as [->|Hne].
    + rewrite Hs in Ho. inversion Ho; subst o.
      destruct (Hin a (Obj_ArmourSet (mkArmourSet (as_Armour s) (parts s) (Some w))))
        as (o' & Ho' & Hsame).
      { apply list_lookup_insert_eq. by apply lookup_lt_Some in Hs. }
      exists o'. split; [done|].
      eapply same_but_weighted_total_trans; [|exact Hsame]. done.
    + apply Hin. by rewrite list_lookup_insert_ne.
Qed.

(** ** The CSV file *)

Lemma field_names_are :
  map f_name (List.filter f_repr fields_ArmourSet)
  = [ "name"; "physical"; "fire"; "bleed"; "poison"; "plague"; "total";
      "weighted_total" ]%string.
Proof. reflexivity. Qed.

Lemma write_rows_scored (h : heap) (armours : list loc) :
  forall file : list csv_row,
  Forall (is_scored h) armours ->
  exists rows,
    write_rows h (map f_name (List.filter f_repr fields_ArmourSet)) armours file
    = (file ++ rows, Ok tt)
    /\ Forall2 (row_of h) armours rows.
Proof.
  rewrite field_names_are.
  induction armours as [|l armours IH]; intros file Hs.
  { exists []. simpl. by rewrite app_nil_r. }
  apply Forall_cons in Hs as [(s & w & Hl & Hw) Hs].
  destruct (IH (file ++ [cells s w]) Hs) as (rows & Hrows & Hall).
  exists (cells s w :: rows). split.
  - simpl. rewrite Hl. simpl. rewrite Hw. simpl.
    rewrite <- app_assoc in Hrows. exact Hrows.
  - constructor; [by exists s, w|done].
Qed.

Lemma write_rows_keeps (h : heap) (names : list string) (armours : list loc) :
  forall file : list csv_row,
  exists rows r, write_rows h names armours file = (file ++ rows, r).
Proof.
  induction armours as [|l armours IH]; intros file; simpl.
  { exists [], (Ok tt). by rewrite app_nil_r. }
  destruct (h !! l) as [o|]; [|exists [], (Raise BadReference); by rewrite app_nil_r].
  destruct (try_yield _ names) as [row|e]; simpl;
    [|exists [], (Raise e); by rewrite app_nil_r].
  unfold writerow. destruct (forallb _ row);
    [|exists [], (Raise ValueError); by rewrite app_nil_r].
  destruct (IH (file ++ [map (fun k => default (V_str "") (dict_get row k)) names]))
    as (rows & r & ->).
  eexists _, r. by rewrite <- app_assoc.
Qed.

(** ** A run of [make_armourset_list] on live catalogs *)

Section Run.

Context (h : heap) (hs ts ms ls : list loc).
Hypothesis live : catalogs_valid h hs ts ms ls.

Lemma product_valid : Forall (Forall (valid h)) (product [hs; ts; ms; ls]).
Proof.
  destruct live as (Hh & Ht & Hm & Hl). rewrite product_four.
  apply Forall_forall. intros c Hc.
  apply nested_loops_elem in Hc as (p1 & p2 & p3 & p4 & -> & I1 & I2 & I3 & I4).
  rewrite Forall_forall in Hh, Ht, Hm, Hl.
  repeat (apply Forall_cons; split); auto.
Qed.

Lemma product_combo (i : nat) (combo : list loc) :
  product [hs; ts; ms; ls] !! i = Some combo ->
  exists p1 p2 p3 p4,
    combo = [p1; p2; p3; p4]
    /\ valid h p1 /\ valid h p2 /\ valid h p3 /\ valid h p4.
Proof.
  intros Hc. pose proof product_valid as Hv.
  rewrite Forall_forall in Hv. specialize (Hv combo (list_elem_of_lookup_2 _ _ _ Hc)).
  apply list_elem_of_lookup_2 in Hc. rewrite product_four in Hc.
  apply nested_loops_elem in Hc as (p1 & p2 & p3 & p4 & -> & _).
  exists p1, p2, p3, p4. split; [done|].
  by repeat (apply Forall_cons in Hv as [? Hv]).
Qed.

Lemma combination_loop_spec :
  combination_loop hs ts ms ls h
  = Ok (seq (length h) (length (product [hs; ts; ms; ls])),
        h ++ map Obj_ArmourSet (candidates h hs ts ms ls)).
Proof.
  unfold combination_loop, candidates.
  rewrite for_each_combinations by apply product_valid.
  by rewrite map_map.
Qed.

Hypothesis head_nonempty : hs <> [].
Hypothesis torso_nonempty : ts <> [].
Hypothesis arms_nonempty : ms <> [].
Hypothesis legs_nonempty : ls <> [].

(** The run in closed form: the candidates get the next free references, in
    order, and end up scored against their own extrema. *)
Lemma make_armourset_list_spec :
  let cs := candidates h hs ts ms ls in
  exists x,
    extrema_of x (map as_Armour cs)
    /\ compute_extrema (seq (length h) (length cs)) (h ++ map Obj_ArmourSet cs)
       = Ok (x, h ++ map Obj_ArmourSet cs)
    /\ weighted_total_loop (seq (length h) (length cs)) x (h ++ map Obj_ArmourSet cs)
       = Ok (tt, h ++ map (fun s => Obj_ArmourSet (scored x s)) cs)
    /\ make_armourset_list hs ts ms ls h
       = Ok (seq (length h) (length cs),
             h ++ map (fun s => Obj_ArmourSet (scored x s)) cs).
Proof.
  intros cs.
  assert (map Obj_ArmourSet cs <> []) as Hne.
  { unfold cs, candidates. intros He.
    apply map_eq_nil, map_eq_nil in He. by apply product_nonempty in He. }
  destruct (compute_extrema_spec h _ Hne) as (x & Ex & Hx).
  rewrite length_map in Ex. rewrite map_map in Hx. simpl in Hx.
  assert (weighted_total_loop (seq (length h) (length cs)) x (h ++ map Obj_ArmourSet cs)
          = Ok (tt, h ++ map (fun s => Obj_ArmourSet (scored x s)) cs)) as Hl.
  { apply weighted_total_loop_fresh. apply Forall_forall. intros s Hs.
    apply (extrema_of_within x (map as_Armour cs)); [done|].
    by apply list_elem_of_In, in_map, list_elem_of_In. }
  exists x. split; [exact Hx|]. split; [exact Ex|]. split; [exact Hl|].
  unfold make_armourset_list, M_bind.
  rewrite combination_loop_spec. fold cs.
  replace (length (product [hs; ts; ms; ls])) with (length cs)
    by (unfold cs, candidates; by rewrite length_map).
  by rewrite Ex, Hl.
Qed.

(** The same, by what can be observed of the returned list and heap. *)
Lemma make_armourset_list_post :
  exists x armours h',
    make_armourset_list hs ts ms ls h = Ok (armours, h')
    /\ extrema_of x (peek h' armours)
    /\ length armours = length (product [hs; ts; ms; ls])
    /\ (forall l, valid h l -> h' !! l = h !! l)
    /\ (forall i l, armours !! i = Some l ->
        exists combo,
          product [hs; ts; ms; ls] !! i = Some combo
          /\ h' !! l = Some (Obj_ArmourSet (scored x (candidate_at h combo)))).
Proof.
  destruct make_armourset_list_spec as (x & Hx & _ & _ & Hm).
  set (cs := candidates h hs ts ms ls) in *.
  assert (length cs = length (product [hs; ts; ms; ls])) as Hlen
    by (unfold cs, candidates; by rewrite length_map).
  exists x, (seq (length h) (length cs)),
         (h ++ map (fun s => Obj_ArmourSet (scored x s)) cs).
  split; [exact Hm|]. split; [|split; [|split]].
  - pose proof (peek_fresh (map (fun s => Obj_ArmourSet (scored x s)) cs) h) as Hp.
    rewrite length_map in Hp. rewrite Hp, map_map. exact Hx.
  - by rewrite length_seq.
  - intros l Hl. by apply lookup_app_l.
  - intros i l Hi. apply lookup_seq in Hi as [-> Hi].
    destruct (lookup_lt_is_Some_2 (product [hs; ts; ms; ls]) i) as [combo Hc];
      [lia|].
    exists combo. split; [done|].
    rewrite lookup_app_r by lia.
    replace (length h + i - length h)%nat with i by lia.
    unfold cs, candidates. rewrite map_map, lookup_map, Hc. done.
Qed.

End Run.

Lemma make_armourset_list_Ok_nonempty (h : heap) (hs ts ms ls : list loc)
    (armours : list loc) (h' : heap) :
  make_armourset_list hs ts ms ls h = Ok (armours, h') ->
  hs <> [] /\ ts <> [] /\ ms <> [] /\ ls <> [].
Proof.
  intros Hm.
  destruct hs as [|p1 hs']; [|destruct ts as [|p2 ts']; [|destruct ms as [|p3 ms'];
    [|destruct ls as [|p4 ls']]]].
  1-4: (unfold make_armourset_list, M_bind in Hm;
        rewrite combination_loop_empty in Hm by auto; discriminate).
  done.
Qed.

(** ** The compiled-in catalogs *)

Lemma module_data_runs : module_data [] = Ok (module_catalogs, module_heap).
Proof. reflexivity. Qed.

Lemma module_catalogs_are :
  module_catalogs = mkCatalogs [0; 1; 2; 3]%nat [4; 5; 6]%nat [7; 8; 9]%nat [10; 11; 12]%nat
  /\ length module_heap = 13%nat.
Proof. split; reflexivity. Qed.

Lemma module_catalogs_valid :
  catalogs_valid module_heap (head module_catalogs) (torso module_catalogs)
                 (arms module_catalogs) (legs module_catalogs).
Proof.
  rewrite (proj1 module_catalogs_are). simpl.
  repeat split; apply Forall_forall; intros l Hl; unfold valid;
    change (length module_heap) with 13%nat;
    repeat (apply elem_of_cons in Hl as [->|Hl]; [lia|]);
    by apply not_elem_of_nil in Hl.
Qed.

Lemma main_runs (c : catalogs) (h0 : heap) (options : list loc) (h' : heap)
    (file : list csv_row) :
  module_data [] = Ok (c, h0) ->
  make_armourset_list (head c) (torso c) (arms c) (legs c) h0 = Ok (options, h') ->
  write_to_csv options h' = (file, Ok tt) ->
  main = Ok file.
Proof.
  intros H1 H2 H3. unfold main, M_bind. rewrite H1, H2. unfold M_ret.
  by rewrite H3.
Qed.

(** Applies a theorem on live, non-empty catalogs to the compiled-in ones. *)
Ltac on_module_data thm :=
  apply (thm module_heap (head module_catalogs) (torso module_catalogs)
             (arms module_catalogs) (legs module_catalogs) module_catalogs_valid);
  discriminate.

(** * The claims *)

(** C1, as amended. For all four catalogs whose references are live, the
    combination loop yields exactly |head| * |torso| * |arms| * |legs|
    candidates; a list that [make_armourset_list] returns has exactly that
    length; and it does return one when no catalog is empty. For the
    compiled-in catalogs, of 4, 3, 3 and 3 items, that is 108 candidates
    (the witness). *)
Theorem make_armourset_list_count (h : heap) (hs ts ms ls : list loc) :
  catalogs_valid h hs ts ms ls ->
  let n := (length hs * length ts * length ms * length ls)%nat in
  (exists armours h1,
      combination_loop hs ts ms ls h = Ok (armours, h1) /\ length armours = n)
  /\ (forall armours h',
         make_armourset_list hs ts ms ls h = Ok (armours, h') -> length armours = n)
  /\ (hs <> [] -> ts <> [] -> ms <> [] -> ls <> [] ->
      exists armours h',
        make_armourset_list hs ts ms ls h = Ok (armours, h') /\ length armours = n).
Proof.
  intros Hv n.
  assert (hs <> [] -> ts <> [] -> ms <> [] -> ls <> [] ->
          exists armours h',
            make_armourset_list hs ts ms ls h = Ok (armours, h') /\ length armours = n)
    as Hret.
  { intros N1 N2 N3 N4.
    destruct (make_armourset_list_spec h hs ts ms ls Hv N1 N2 N3 N4)
      as (x & _ & _ & _ & Hm).
    eexists _, _. split; [exact Hm|].
    rewrite length_seq. unfold candidates. by rewrite length_map, product_length. }
  split; [|split]; [| |exact Hret].
  - eexists _, _. split; [by apply combination_loop_spec|].
    by rewrite length_seq, product_length.
  - intros armours h' Hm.
    destruct (make_armourset_list_Ok_nonempty _ _ _ _ _ _ _ Hm) as (N1 & N2 & N3 & N4).
    destruct (Hret N1 N2 N3 N4) as (armours' & h'' & Hm' & Hlen).
    rewrite Hm' in Hm. by inversion Hm; subst.
Qed.

Lemma make_armourset_list_count_witness :
  exists armours h',
    make_armourset_list (head module_catalogs) (torso module_catalogs)
                        (arms module_catalogs) (legs module_catalogs) module_heap
    = Ok (armours, h')
    /\ length armours = 108%nat.
Proof.
  destruct (make_armourset_list_count module_heap (head module_catalogs)
              (torso module_catalogs) (arms module_catalogs) (legs module_catalogs)
              module_catalogs_valid) as (_ & _ & Hret).
  exact (Hret ltac:(discriminate) ltac:(discriminate)
              ltac:(discriminate) ltac:(discriminate)).
Defined.

(** C1, the claim as stated fails on its count for the compiled-in data:
    [make_armourset_list] returns 108 candidates there, not 36. *)
Lemma make_armourset_list_compiled_in_is_not_36 :
  exists armours h',
    make_armourset_list (head module_catalogs) (torso module_catalogs)
                        (arms module_catalogs) (legs module_catalogs) module_heap
    = Ok (armours, h')
    /\ length armours = 108%nat /\ length armours <> 36%nat.
Proof.
  destruct (make_armourset_list_spec module_heap (head module_catalogs)
              (torso module_catalogs) (arms module_catalogs) (legs module_catalogs)
              module_catalogs_valid ltac:(discriminate) ltac:(discriminate)
              ltac:(discriminate) ltac:(discriminate))
    as (x & _ & _ & _ & Hm).
  eexists _, _. split; [exact Hm|].
  rewrite length_seq. unfold candidates. rewrite length_map, product_length.
  split; [reflexivity|]. simpl. lia.
Qed.

(** C2. For live, non-empty catalogs [make_armourset_list] returns, and every
    candidate it returns has four parts, each of its five summed attributes
    is the sum of that attribute over the four parts, and its [total] is the
    sum of its own five attributes. *)
Theorem make_armourset_list_sums (h : heap) (hs ts ms ls : list loc) :
  catalogs_valid h hs ts ms ls ->
  hs <> [] -> ts <> [] -> ms <> [] -> ls <> [] ->
  exists armours h',
    make_armourset_list hs ts ms ls h = Ok (armours, h')
    /\ forall l, l ∈ armours ->
       exists s,
         h' !! l = Some (Obj_ArmourSet s)
         /\ sums_of_parts h' s
         /\ total s = physical s + fire s + bleed s + poison s + plague s.
Proof.
  intros Hv N1 N2 N3 N4.
  destruct (make_armourset_list_post h hs ts ms ls Hv N1 N2 N3 N4)
    as (x & armours & h' & Hm & _ & _ & Hold & Hnew).
  exists armours, h'. split; [exact Hm|].
  intros l Hl. apply list_elem_of_lookup_1 in Hl as [i Hi].
  destruct (Hnew i l Hi) as (combo & Hc & Hs).
  destruct (product_combo h hs ts ms ls Hv i combo Hc)
    as (p1 & p2 & p3 & p4 & -> & V1 & V2 & V3 & V4).
  destruct (peek_four h p1 p2 p3 p4 V1 V2 V3 V4)
    as (a1 & a2 & a3 & a4 & E1 & E2 & E3 & E4 & Hp).
  eexists. split; [exact Hs|].
  unfold candidate_at. rewrite Hp.
  split; [|by apply candidate_fields].
  exists p1, p2, p3, p4, a1, a2, a3, a4.
  unfold view in *. rewrite !Hold by done.
  repeat split; try done; simpl; apply sum_four.
Qed.

Lemma make_armourset_list_sums_witness :
  exists armours h',
    make_armourset_list (head module_catalogs) (torso module_catalogs)
                        (arms module_catalogs) (legs module_catalogs) module_heap
    = Ok (armours, h')
    /\ forall l, l ∈ armours ->
       exists s,
         h' !! l = Some (Obj_ArmourSet s)
         /\ sums_of_parts h' s
         /\ total s = physical s + fire s + bleed s + poison s + plague s.
Proof.
  on_module_data make_armourset_list_sums.
Defined.

(** C3. For all integers, [normalise] never raises a division error; it
    returns 0.0 when the two bounds are equal; and for min < max and
    min <= x <= max it returns (x - min) / (max - min), which lies in
    [0, 1]. *)
Theorem normalise_spec (x lo hi : Z) :
  (forall e, normalise x lo hi <> Raise e)
  /\ (hi = lo -> normalise x lo hi = Ok 0%R)
  /\ (lo < hi -> lo <= x <= hi ->
      exists r, normalise x lo hi = Ok r
                /\ r = ((IZR x - IZR lo) / (IZR hi - IZR lo))%R
                /\ (0 <= r <= 1)%R).
Proof.
  split; [|split].
  - intros e. by rewrite normalise_norm.
  - intros ->. rewrite normalise_norm. unfold norm. by rewrite Z.eqb_refl.
  - intros Hlt Hx. exists (norm x lo hi). split; [apply normalise_norm|].
    split; [|by apply norm_range].
    unfold norm. destruct (Z.eqb_spec hi lo); [lia|].
    by rewrite !minus_IZR.
Qed.

Lemma normalise_spec_witness :
  exists r, normalise 5 0 10 = Ok r
            /\ r = ((IZR 5 - IZR 0) / (IZR 10 - IZR 0))%R
            /\ (0 <= r <= 1)%R.
Proof.
  exact (proj2 (proj2 (normalise_spec 5 0 10)) ltac:(lia) ltac:(lia)).
Defined.

(** C4. For live, non-empty catalogs, with the default weights, every
    returned candidate carries a [weighted_total] that equals
    0.5 * norm_total + 0.5 * geo and lies in [0, 1], where each normalised
    value is 0 when the extrema of the whole candidate list coincide and
    (value - min) / (max - min) otherwise, and geo, the geometric mean of
    equal weights, is the square root of norm_poison * norm_plague. *)
Theorem make_armourset_list_weighted_total (h : heap) (hs ts ms ls : list loc) :
  catalogs_valid h hs ts ms ls ->
  hs <> [] -> ts <> [] -> ms <> [] -> ls <> [] ->
  exists x armours h',
    make_armourset_list hs ts ms ls h = Ok (armours, h')
    /\ extrema_of x (peek h' armours)
    /\ forall l, l ∈ armours ->
       exists s w norm_poison norm_plague norm_total geo,
         h' !! l = Some (Obj_ArmourSet s)
         /\ weighted_total s = Some w
         /\ normalise (poison s) (min_poison x) (max_poison x) = Ok norm_poison
         /\ normalise (plague s) (min_plague x) (max_plague x) = Ok norm_plague
         /\ normalise (total s) (min_total x) (max_total x) = Ok norm_total
         /\ geometric_mean norm_poison norm_plague 1 1 = Ok geo
         /\ w = (0.5 * norm_total + 0.5 * geo)%R
         /\ (0 <= w <= 1)%R
         /\ norm_poison
            = (if max_poison x =? min_poison x then 0
               else (IZR (poison s) - IZR (min_poison x))
                    / (IZR (max_poison x) - IZR (min_poison x)))%R
         /\ norm_plague
            = (if max_plague x =? min_plague x then 0
               else (IZR (plague s) - IZR (min_plague x))
                    / (IZR (max_plague x) - IZR (min_plague x)))%R
         /\ norm_total
            = (if max_total x =? min_total x then 0
               else (IZR (total s) - IZR (min_total x))
                    / (IZR (max_total x) - IZR (min_total x)))%R
         /\ geo = sqrt (norm_poison * norm_plague).
Proof.
  intros Hv N1 N2 N3 N4.
  destruct (make_armourset_list_post h hs ts ms ls Hv N1 N2 N3 N4)
    as (x & armours & h' & Hm & Hx & _ & _ & Hnew).
  exists x, armours, h'. split; [exact Hm|]. split; [exact Hx|].
  intros l Hl. pose proof Hl as Hin.
  apply list_elem_of_lookup_1 in Hl as [i Hi].
  destruct (Hnew i l Hi) as (combo & Hc & Hs).
  set (c := candidate_at h combo) in *.
  assert (within x c) as Hw.
  { apply (extrema_of_within x (peek h' armours)); [done|].
    apply (peek_elem h' armours l _ Hin Hs). }
  destruct (get_geometric_mean_within x c Hw) as [_ Hr].
  destruct Hw as (Wp & Wq & Wt).
  pose proof (norm_range _ _ _ Wp) as Rp.
  pose proof (norm_range _ _ _ Wq) as Rq.
  set (np := norm (poison c) (min_poison x) (max_poison x)) in *.
  set (nq := norm (plague c) (min_plague x) (max_plague x)) in *.
  assert (geometric_mean np nq 1 1 = Ok (sqrt (np * nq))) as Hg
    by (apply geometric_mean_default; nra).
  exists (scored x c), (score x c), np, nq,
         (norm (total c) (min_total x) (max_total x)), (sqrt (np * nq)).
  split; [exact Hs|]. split; [done|].
  change (as_Armour (scored x c)) with (as_Armour c).
  rewrite !normalise_norm. do 3 (split; [reflexivity|]).
  split; [exact Hg|]. split; [reflexivity|]. split; [exact Hr|].
  unfold np, nq. do 3 (split; [apply norm_formula|]). reflexivity.
Qed.

Lemma make_armourset_list_weighted_total_witness :
  exists x armours h',
    make_armourset_list (head module_catalogs) (torso module_catalogs)
                        (arms module_catalogs) (legs module_catalogs) module_heap
    = Ok (armours, h')
    /\ extrema_of x (peek h' armours)
    /\ forall l, l ∈ armours ->
       exists s w norm_poison norm_plague norm_total geo,
         h' !! l = Some (Obj_ArmourSet s)
         /\ weighted_total s = Some w
         /\ normalise (poison s) (min_poison x) (max_poison x) = Ok norm_poison
         /\ normalise (plague s) (min_plague x) (max_plague x) = Ok norm_plague
         /\ normalise (total s) (min_total x) (max_total x) = Ok norm_total
         /\ geometric_mean norm_poison norm_plague 1 1 = Ok geo
         /\ w = (0.5 * norm_total + 0.5 * geo)%R
         /\ (0 <= w <= 1)%R
         /\ norm_poison
            = (if max_poison x =? min_poison x then 0
               else (IZR (poison s) - IZR (min_poison x))
                    / (IZR (max_poison x) - IZR (min_poison x)))%R
         /\ norm_plague
            = (if max_plague x =? min_plague x then 0
               else (IZR (plague s) - IZR (min_plague x))
                    / (IZR (max_plague x) - IZR (min_plague x)))%R
         /\ norm_total
            = (if max_total x =? min_total x then 0
               else (IZR (total s) - IZR (min_total x))
                    / (IZR (max_total x) - IZR (min_total x)))%R
         /\ geo = sqrt (norm_poison * norm_plague).
Proof.
  on_module_data make_armourset_list_weighted_total.
Defined.

(** C5, as amended. For non-negative weights whose sum is at most the
    largest finite float, and normalised values in [0, 1] (what [normalise]
    gives for a candidate between the extrema), the weighted geometric mean
    is 0.0 whenever one of the two normalised values is 0.0 and the weight
    of that same value is strictly positive. *)
Theorem geometric_mean_zero (np nq wp wq : R) :
  (0 <= wp)%R -> (0 <= wq)%R -> (wp + wq <= float_max)%R ->
  (0 <= np <= 1)%R -> (0 <= nq <= 1)%R ->
  (np = 0%R /\ (0 < wp)%R) \/ (nq = 0%R /\ (0 < wq)%R) ->
  geometric_mean np nq wp wq = Ok 0%R.
Proof.
  intros Hwp Hwq _ [Hnp _] [Hnq _] Hz. unfold geometric_mean.
  destruct (float_pow_nonneg np wp Hnp Hwp) as (a & Ea & Ha).
  destruct (float_pow_nonneg nq wq Hnq Hwq) as (b & Eb & Hb).
  assert (0 < wp + wq)%R as Hw by (destruct Hz as [[_ ?]|[_ ?]]; lra).
  assert (a * b = 0)%R as Hab.
  { destruct Hz as [[-> Hp]|[-> Hq]].
    - rewrite float_pow_zero_base in Ea by done. inversion Ea. lra.
    - rewrite float_pow_zero_base in Eb by done. inversion Eb. lra. }
  rewrite Ea, Eb. simpl. rewrite float_div_nonzero by lra. simpl.
  rewrite Hab. apply float_pow_zero_base.
  unfold Rdiv. rewrite Rmult_1_l. by apply Rinv_0_lt_compat.
Qed.

Lemma geometric_mean_zero_witness : geometric_mean 0 (1 / 2) 1 1 = Ok 0%R.
Proof.
  apply (geometric_mean_zero 0 (1 / 2) 1 1); [lra|lra| |lra|lra|].
  - replace (1 + 1)%R with (IZR 2) by lra. apply IZR_le.
    apply Z.leb_le. vm_compute. reflexivity.
  - left. split; [reflexivity|lra].
Defined.

(** C5, the claim as stated fails: poison is normalised to 0.0, the weights
    are 0 and 1 (non-negative, not both zero), and the geometric mean is the
    normalised plague 0.5, so the candidate scores 0.25 and not 0. *)
Lemma geometric_mean_zero_weight_not_zero :
  let s := ArmourSet__init__ "set" 0 0 0 0 5 [] in
  normalise (poison s) 0 10 = Ok 0%R
  /\ geometric_mean 0 (1 / 2) 0 1 = Ok (1 / 2)%R
  /\ get_geometric_mean s 0 10 0 10 5 5 0 1 = Ok (1 / 4)%R
  /\ (1 / 2 <> 0)%R.
Proof.
  assert (geometric_mean 0 (1 / 2) 0 1 = Ok (1 / 2)%R) as Hg.
  { unfold geometric_mean. rewrite float_pow_zero_exponent, float_pow_one. simpl.
    rewrite float_div_nonzero by lra. simpl.
    replace (1 / (0 + 1))%R with 1%R by lra. rewrite float_pow_one.
    f_equal. lra. }
  intros s. split; [|split; [exact Hg|split; [|lra]]].
  - rewrite normalise_norm. f_equal. rewrite norm_proper by done. simpl. lra.
  - unfold get_geometric_mean. rewrite !normalise_norm.
    assert (norm (poison s) 0 10 = 0%R) as ->
      by (rewrite norm_proper by done; simpl; lra).
    assert (norm (plague s) 0 10 = (1 / 2)%R) as ->
      by (rewrite norm_proper by done; simpl; lra).
    assert (norm (total s) 5 5 = 0%R) as -> by apply norm_degenerate.
    simpl. rewrite Hg. simpl. f_equal. lra.
Qed.

(** C6. For live, non-empty catalogs the returned list holds the Cartesian
    product in lexicographic order, head slowest and legs fastest: read in
    order, the parts of the returned candidates are what four nested loops
    over head, torso, arms and legs yield; the combination of the items at
    [ih], [it], [im] and [il] of the four catalogs sits at position
    ((ih * |torso| + it) * |arms| + im) * |legs| + il; and the list has
    |head| * |torso| * |arms| * |legs| entries. *)
Theorem make_armourset_list_order (h : heap) (hs ts ms ls : list loc) :
  catalogs_valid h hs ts ms ls ->
  hs <> [] -> ts <> [] -> ms <> [] -> ls <> [] ->
  exists armours h',
    make_armourset_list hs ts ms ls h = Ok (armours, h')
    /\ length armours = (length hs * length ts * length ms * length ls)%nat
    /\ (exists ss,
          Forall2 (fun l s => h' !! l = Some (Obj_ArmourSet s)) armours ss
          /\ map parts ss = nested_loops hs ts ms ls)
    /\ forall ih it im il p1 p2 p3 p4,
         hs !! ih = Some p1 -> ts !! it = Some p2 ->
         ms !! im = Some p3 -> ls !! il = Some p4 ->
         exists l s,
           armours !! position (length ts) (length ms) (length ls) ih it im il
           = Some l
           /\ h' !! l = Some (Obj_ArmourSet s)
           /\ parts s = [p1; p2; p3; p4].
Proof.
  intros Hv N1 N2 N3 N4.
  destruct (make_armourset_list_post h hs ts ms ls Hv N1 N2 N3 N4)
    as (x & armours & h' & Hm & _ & Hlen & _ & Hnew).
  exists armours, h'. split; [exact Hm|]. split.
  { by rewrite Hlen, product_length. }
  split.
  { exists (map (fun c => scored x (candidate_at h c)) (product [hs; ts; ms; ls])).
    split.
    - apply Forall2_same_length_lookup_2; [by rewrite length_map|].
      intros i l s Hl Hs. destruct (Hnew i l Hl) as (combo & Hc & Ho).
      rewrite lookup_map, Hc in Hs. simpl in Hs. by inversion Hs; subst.
    - rewrite map_map. simpl. rewrite map_id. apply product_four. }
  intros ih it im il p1 p2 p3 p4 H1 H2 H3 H4.
  pose proof (nested_loops_lookup hs ts ms ls ih it im il _ _ _ _ H1 H2 H3 H4) as Hn.
  rewrite <- product_four in Hn.
  destruct (lookup_lt_is_Some_2 armours
              (position (length ts) (length ms) (length ls) ih it im il))
    as [l Hl].
  { rewrite Hlen. by apply lookup_lt_Some in Hn. }
  destruct (Hnew _ l Hl) as (combo & Hc & Hs).
  rewrite Hn in Hc. inversion Hc; subst combo.
  exists l. eexists. split; [exact Hl|]. split; [exact Hs|]. done.
Qed.

Lemma make_armourset_list_order_witness :
  exists armours h',
    make_armourset_list (head module_catalogs) (torso module_catalogs)
                        (arms module_catalogs) (legs module_catalogs) module_heap
    = Ok (armours, h')
    /\ length armours = 108%nat
    /\ (exists ss,
          Forall2 (fun l s => h' !! l = Some (Obj_ArmourSet s)) armours ss
          /\ map parts ss
             = nested_loops (head module_catalogs) (torso module_catalogs)
                            (arms module_catalogs) (legs module_catalogs))
    /\ forall ih it im il p1 p2 p3 p4,
         head module_catalogs !! ih = Some p1 -> torso module_catalogs !! it = Some p2 ->
         arms module_catalogs !! im = Some p3 -> legs module_catalogs !! il = Some p4 ->
         exists l s,
           armours !! position 3 3 3 ih it im il = Some l
           /\ h' !! l = Some (Obj_ArmourSet s)
           /\ parts s = [p1; p2; p3; p4].
Proof.
  on_module_data make_armourset_list_order.
Defined.

(** C7. [write_to_csv] writes the header row name, physical, fire, bleed,
    poison, plague, total, weighted_total first, whatever happens next; and
    when every candidate of the list is a scored [ArmourSet] it ends without
    an exception, having written after the header exactly one row per
    candidate, in the order of the list, holding those eight attributes and
    no [parts]. *)
Theorem write_to_csv_rows (armours : list loc) (h : heap) :
  let header :=
    map V_str [ "name"; "physical"; "fire"; "bleed"; "poison"; "plague"; "total";
                "weighted_total" ]%string in
  (exists rows r, write_to_csv armours h = (header :: rows, r))
  /\ (Forall (is_scored h) armours ->
      exists rows,
        write_to_csv armours h = (header :: rows, Ok tt)
        /\ length rows = length armours
        /\ Forall2 (row_of h) armours rows).
Proof.
  intros header. unfold write_to_csv, writeheader. split.
  - destruct (write_rows_keeps h (map f_name (List.filter f_repr fields_ArmourSet))
                armours ([] ++ [header])) as (rows & r & Hw).
    exists rows, r. rewrite field_names_are in *. exact Hw.
  - intros Hs.
    destruct (write_rows_scored h armours ([] ++ [header]) Hs) as (rows & Hw & Hall).
    exists rows. split; [|split; [|exact Hall]].
    + rewrite field_names_are in *. exact Hw.
    + symmetry. by eapply Forall2_length.
Qed.

Lemma write_to_csv_rows_witness :
  let s := mkArmourSet (Armour__init__ "Gold Mask" 2 8 16 16 16) [] (Some 0%R) in
  exists rows,
    write_to_csv [0%nat] [Obj_ArmourSet s]
    = (map V_str [ "name"; "physical"; "fire"; "bleed"; "poison"; "plague"; "total";
                   "weighted_total" ]%string :: rows, Ok tt)
    /\ length rows = 1%nat
    /\ Forall2 (row_of [Obj_ArmourSet s]) [0%nat] rows.
Proof.
  intros s.
  apply (proj2 (write_to_csv_rows [0%nat] [Obj_ArmourSet s])).
  constructor; [|constructor].
  exists s, 0%R. split; reflexivity.
Defined.

(** C8. [get_geometric_mean] does not validate its weights. With both
    weights zero the division by [total_weight] raises [ZeroDivisionError]:
    lines 152-157 raise it whatever the two normalised values, and so does
    the call for every candidate between the extrema. With non-negative
    weights that are not both zero the division yields a value, and for
    every candidate between the extrema the call returns a score: no
    zero-division error, and no other exception. *)
Theorem get_geometric_mean_weights (s : ArmourSet)
    (min_po max_po min_pl max_pl min_to max_to : Z) :
  min_po <= poison s <= max_po ->
  min_pl <= plague s <= max_pl ->
  min_to <= total s <= max_to ->
  (forall p q : R, geometric_mean p q 0 0 = Raise ZeroDivisionError)
  /\ get_geometric_mean s min_po max_po min_pl max_pl min_to max_to 0 0
     = Raise ZeroDivisionError
  /\ forall wp wq : R,
       (0 <= wp)%R -> (0 <= wq)%R -> ~ (wp = 0%R /\ wq = 0%R) ->
       (exists e, float_div 1 (wp + wq) = Ok e)
       /\ exists w,
            get_geometric_mean s min_po max_po min_pl max_pl min_to max_to wp wq
            = Ok w.
Proof.
  intros Hp Hq Ht. split; [exact geometric_mean_zero_weights|]. split.
  - unfold get_geometric_mean. rewrite !normalise_norm. simpl.
    by rewrite geometric_mean_zero_weights.
  - intros wp wq Hwp Hwq Hnz. split.
    + assert (wp + wq <> 0)%R as Hw.
      { intros Hs. apply Hnz. split; lra. }
      eexists. by apply float_div_nonzero.
    + unfold get_geometric_mean. rewrite !normalise_norm. simpl.
      destruct (geometric_mean_unit_interval _ _ wp wq
                  (norm_range _ _ _ Hp) (norm_range _ _ _ Hq) Hwp Hwq Hnz)
        as (g & -> & _).
      simpl. by eexists.
Qed.

Lemma get_geometric_mean_weights_witness :
  let s := ArmourSet__init__ "set" 1 2 3 4 5 [] in
  (forall p q : R, geometric_mean p q 0 0 = Raise ZeroDivisionError)
  /\ get_geometric_mean s 0 10 0 10 0 20 0 0 = Raise ZeroDivisionError
  /\ forall wp wq : R,
       (0 <= wp)%R -> (0 <= wq)%R -> ~ (wp = 0%R /\ wq = 0%R) ->
       (exists e, float_div 1 (wp + wq) = Ok e)
       /\ exists w, get_geometric_mean s 0 10 0 10 0 20 wp wq = Ok w.
Proof.
  intros s.
  apply (get_geometric_mean_weights s 0 10 0 10 0 20);
    vm_compute; split; discriminate.
Defined.

(** C9, as amended. If any of the four catalogs is empty, the combination
    loop yields the empty candidate list and leaves the heap as it was, but
    [make_armourset_list] does not return it: [min] of the empty sequence
    (line 91) raises [ValueError]. *)
Theorem make_armourset_list_empty_catalog (h : heap) (hs ts ms ls : list loc) :
  hs = [] \/ ts = [] \/ ms = [] \/ ls = [] ->
  combination_loop hs ts ms ls h = Ok ([], h)
  /\ make_armourset_list hs ts ms ls h = Raise ValueError.
Proof.
  intros He. pose proof (combination_loop_empty h hs ts ms ls He) as Hc.
  split; [exact Hc|].
  unfold make_armourset_list, M_bind. by rewrite Hc.
Qed.

Lemma make_armourset_list_empty_catalog_witness :
  combination_loop [] (torso module_catalogs) (arms module_catalogs)
                   (legs module_catalogs) module_heap
  = Ok ([], module_heap)
  /\ make_armourset_list [] (torso module_catalogs) (arms module_catalogs)
                         (legs module_catalogs) module_heap
     = Raise ValueError.
Proof.
  apply (make_armourset_list_empty_catalog module_heap [] (torso module_catalogs)
           (arms module_catalogs) (legs module_catalogs)).
  by left.
Defined.

(** C9, the claim as stated fails: with the head catalog emptied and the
    other three as compiled in, [make_armourset_list] raises [ValueError]
    instead of returning the empty list. *)
Lemma make_armourset_list_empty_head_raises :
  make_armourset_list [] [4; 5; 6]%nat [7; 8; 9]%nat [10; 11; 12]%nat module_heap
  = Raise ValueError.
Proof. reflexivity. Qed.

(** C10. In a run of [make_armourset_list] on live, non-empty catalogs, let
    [h1] be the heap when the scoring loop starts and [h'] the heap it
    leaves. Every candidate is the same in [h'] as in [h1] in its name,
    physical, fire, bleed, poison, plague, total and parts; every object that
    is not a candidate is the same; and every object the catalogs name is
    the same as before the call. *)
Theorem weighted_total_loop_writes_only_weighted_total
    (h : heap) (hs ts ms ls : list loc) :
  catalogs_valid h hs ts ms ls ->
  hs <> [] -> ts <> [] -> ms <> [] -> ls <> [] ->
  exists armours h1 x h',
    combination_loop hs ts ms ls h = Ok (armours, h1)
    /\ compute_extrema armours h1 = Ok (x, h1)
    /\ weighted_total_loop armours x h1 = Ok (tt, h')
    /\ make_armourset_list hs ts ms ls h = Ok (armours, h')
    /\ (forall l, l ∈ armours ->
        exists s s',
          h1 !! l = Some (Obj_ArmourSet s) /\ h' !! l = Some (Obj_ArmourSet s')
          /\ name s' = name s /\ physical s' = physical s /\ fire s' = fire s
          /\ bleed s' = bleed s /\ poison s' = poison s /\ plague s' = plague s
          /\ total s' = total s /\ parts s' = parts s)
    /\ (forall l, l ∉ armours -> h' !! l = h1 !! l)
    /\ (forall l, l ∈ hs ++ ts ++ ms ++ ls -> h' !! l = h !! l).
Proof.
  intros Hv N1 N2 N3 N4.
  destruct (make_armourset_list_spec h hs ts ms ls Hv N1 N2 N3 N4)
    as (x & Hx & Ex & Hl & Hm).
  set (cs := candidates h hs ts ms ls) in *.
  assert (length (product [hs; ts; ms; ls]) = length cs) as Hlen
    by (unfold cs, candidates; by rewrite length_map).
  pose proof (combination_loop_spec h hs ts ms ls Hv) as Hc.
  fold cs in Hc. rewrite Hlen in Hc.
  destruct (weighted_total_loop_frame _ _ _ _ Hl) as (_ & Hout & Hin).
  eexists _, _, x, _. split; [exact Hc|]. split; [exact Ex|].
  split; [exact Hl|]. split; [exact Hm|]. split; [|split].
  - intros l Hi. apply list_elem_of_In, in_seq in Hi.
    destruct (lookup_lt_is_Some_2 cs (l - length h)) as [s Hs]; [lia|].
    assert ((h ++ map Obj_ArmourSet cs) !! l = Some (Obj_ArmourSet s)) as H1.
    { rewrite lookup_app_r by lia. by rewrite lookup_map, Hs. }
    destruct (Hin l _ H1) as (o' & Ho' & Hsame).
    destruct o' as [a|s']; [done|]. destruct Hsame as [Ha Hp].
    exists s, s'. split; [done|]. split; [done|].
    rewrite <- Ha, <- Hp. done.
  - exact Hout.
  - intros l Hi. apply lookup_app_l.
    destruct Hv as (V1 & V2 & V3 & V4). rewrite Forall_forall in V1, V2, V3, V4.
    rewrite !elem_of_app in Hi. destruct Hi as [?|[?|[?|?]]]; [by apply V1|by apply V2|by apply V3|by apply V4].
Qed.

Lemma weighted_total_loop_writes_only_weighted_total_witness :
  exists armours h1 x h',
    combination_loop (head module_catalogs) (torso module_catalogs)
                     (arms module_catalogs) (legs module_catalogs) module_heap
    = Ok (armours, h1)
    /\ compute_extrema armours h1 = Ok (x, h1)
    /\ weighted_total_loop armours x h1 = Ok (tt, h')
    /\ make_armourset_list (head module_catalogs) (torso module_catalogs)
                           (arms module_catalogs) (legs module_catalogs) module_heap
       = Ok (armours, h')
    /\ (forall l, l ∈ armours ->
        exists s s',
          h1 !! l = Some (Obj_ArmourSet s) /\ h' !! l = Some (Obj_ArmourSet s')
          /\ name s' = name s /\ physical s' = physical s /\ fire s' = fire s
          /\ bleed s' = bleed s /\ poison s' = poison s /\ plague s' = plague s
          /\ total s' = total s /\ parts s' = parts s)
    /\ (forall l, l ∉ armours -> h' !! l = h1 !! l)
    /\ (forall l, l ∈ head module_catalogs ++ torso module_catalogs
                      ++ arms module_catalogs ++ legs module_catalogs ->
        h' !! l = module_heap !! l).
Proof.
  on_module_data weighted_total_loop_writes_only_weighted_total.
Defined.

(** * Further properties of the run *)

(** The composite name of every returned candidate is the names of its four
    parts joined by [" + "] (line 71). *)
Theorem make_armourset_list_names (h : heap) (hs ts ms ls : list loc) :
  catalogs_valid h hs ts ms ls ->
  hs <> [] -> ts <> [] -> ms <> [] -> ls <> [] ->
  exists armours h',
    make_armourset_list hs ts ms ls h = Ok (armours, h')
    /\ forall l, l ∈ armours ->
       exists s p1 p2 p3 p4 a1 a2 a3 a4,
         h' !! l = Some (Obj_ArmourSet s)
         /\ parts s = [p1; p2; p3; p4]
         /\ view h' p1 = Some a1 /\ view h' p2 = Some a2
         /\ view h' p3 = Some a3 /\ view h' p4 = Some a4
         /\ name s = (name a1 +:+ " + " +:+ name a2 +:+ " + " +:+ name a3
                      +:+ " + " +:+ name a4)%string.
Proof.
  intros Hv N1 N2 N3 N4.
  destruct (make_armourset_list_post h hs ts ms ls Hv N1 N2 N3 N4)
    as (x & armours & h' & Hm & _ & _ & Hold & Hnew).
  exists armours, h'. split; [exact Hm|].
  intros l Hl. apply list_elem_of_lookup_1 in Hl as [i Hi].
  destruct (Hnew i l Hi) as (combo & Hc & Hs).
  destruct (product_combo h hs ts ms ls Hv i combo Hc)
    as (p1 & p2 & p3 & p4 & -> & V1 & V2 & V3 & V4).
  destruct (peek_four h p1 p2 p3 p4 V1 V2 V3 V4)
    as (a1 & a2 & a3 & a4 & E1 & E2 & E3 & E4 & Hp).
  eexists _, p1, p2, p3, p4, a1, a2, a3, a4. split; [exact Hs|].
  unfold candidate_at. rewrite Hp.
  unfold view in *. rewrite !Hold by done. done.
Qed.

Lemma make_armourset_list_names_witness :
  exists armours h',
    make_armourset_list (head module_catalogs) (torso module_catalogs)
                        (arms module_catalogs) (legs module_catalogs) module_heap
    = Ok (armours, h')
    /\ forall l, l ∈ armours ->
       exists s p1 p2 p3 p4 a1 a2 a3 a4,
         h' !! l = Some (Obj_ArmourSet s)
         /\ parts s = [p1; p2; p3; p4]
         /\ view h' p1 = Some a1 /\ view h' p2 = Some a2
         /\ view h' p3 = Some a3 /\ view h' p4 = Some a4
         /\ name s = (name a1 +:+ " + " +:+ name a2 +:+ " + " +:+ name a3
                      +:+ " + " +:+ name a4)%string.
Proof.
  on_module_data make_armourset_list_names.
Defined.

(** Run as a script, the module ends without an exception and [out.csv]
    holds the header row and 108 rows, one per combination. *)
Theorem main_writes_every_combination :
  exists rows,
    main = Ok (map V_str [ "name"; "physical"; "fire"; "bleed"; "poison"; "plague";
                           "total"; "weighted_total" ]%string :: rows)
    /\ length rows = 108%nat.
Proof.
  destruct (make_armourset_list_post module_heap (head module_catalogs)
              (torso module_catalogs) (arms module_catalogs) (legs module_catalogs)
              module_catalogs_valid ltac:(discriminate) ltac:(discriminate)
              ltac:(discriminate) ltac:(discriminate))
    as (x & armours & h' & Hm & _ & Hlen & _ & Hnew).
  assert (Forall (is_scored h') armours) as Hs.
  { apply Forall_forall. intros l Hl. apply list_elem_of_lookup_1 in Hl as [i Hi].
    destruct (Hnew i l Hi) as (combo & _ & Ho). eexists _, _. split; [exact Ho|reflexivity]. }
  destruct (write_rows_scored h' armours
              ([] ++ [map V_str (map f_name (List.filter f_repr fields_ArmourSet))]) Hs)
    as (rows & Hw & Hall).
  exists rows. split.
  - apply (main_runs module_catalogs module_heap armours h' _ module_data_runs Hm).
    exact Hw.
  - apply Forall2_length in Hall. rewrite <- Hall, Hlen, product_length.
    reflexivity.
Qed.

(** ** The score under other weights *)

(** With any non-negative weights that are not both zero, a candidate that
    lies between the extrema it is given gets a score, with no exception,
    and the score lies in [0, 1]. *)
Theorem get_geometric_mean_unit_interval (s : ArmourSet)
    (min_po max_po min_pl max_pl min_to max_to : Z) (wp wq : R) :
  min_po <= poison s <= max_po ->
  min_pl <= plague s <= max_pl ->
  min_to <= total s <= max_to ->
  (0 <= wp)%R -> (0 <= wq)%R -> ~ (wp = 0%R /\ wq = 0%R) ->
  exists w,
    get_geometric_mean s min_po max_po min_pl max_pl min_to max_to wp wq = Ok w
    /\ (0 <= w <= 1)%R.
Proof.
  intros Hp Hq Ht Hwp Hwq Hnz. unfold get_geometric_mean.
  rewrite !normalise_norm. simpl.
  destruct (geometric_mean_unit_interval _ _ wp wq
              (norm_range _ _ _ Hp) (norm_range _ _ _ Hq) Hwp Hwq Hnz)
    as (g & -> & Hg).
  simpl. eexists. split; [done|].
  pose proof (norm_range _ _ _ Ht). lra.
Qed.

Lemma get_geometric_mean_unit_interval_witness :
  exists w,
    get_geometric_mean (ArmourSet__init__ "set" 1 2 3 4 5 []) 0 10 0 10 0 20 3 (1 / 2)
    = Ok w
    /\ (0 <= w <= 1)%R.
Proof.
  apply (get_geometric_mean_unit_interval (ArmourSet__init__ "set" 1 2 3 4 5 [])
           0 10 0 10 0 20 3 (1 / 2));
    [vm_compute; split; discriminate | vm_compute; split; discriminate
    | vm_compute; split; discriminate | lra | lra | intros [H _]; lra].
Defined.





(** ** How the scores of one run compare *)

Lemma norm_at_min (lo hi : Z) : norm lo lo hi = 0%R.
Proof.
  unfold norm. destruct (Z.eqb_spec hi lo); [done|].
  rewrite Z.sub_diag. unfold Rdiv. by rewrite Rmult_0_l.
Qed.

Lemma norm_at_max (lo hi : Z) : lo < hi -> norm hi lo hi = 1%R.
Proof.
  intros Hlt. unfold norm. destruct (Z.eqb_spec hi lo); [lia|].
  apply Rinv_r. apply not_0_IZR. lia.
Qed.

Lemma norm_mono (v1 v2 lo hi : Z) :
  lo <= hi -> v1 <= v2 -> (norm v1 lo hi <= norm v2 lo hi)%R.
Proof.
  intros Hr Hv. unfold norm. destruct (Z.eqb_spec hi lo); [lra|].
  assert (0 < IZR (hi - lo))%R as Hd by (apply IZR_lt; lia).
  assert (IZR (v1 - lo) <= IZR (v2 - lo))%R as Hn by (apply IZR_le; lia).
  unfold Rdiv. apply Rmult_le_compat_r; [|done].
  left. by apply Rinv_0_lt_compat.
Qed.

Lemma score_mono (x : extrema) (a b : Armour) :
  within x a -> within x b ->
  poison a <= poison b -> plague a <= plague b -> total a <= total b ->
  (score x a <= score x b)%R.
Proof.
  intros (Pa & Qa & Ta) (Pb & Qb & Tb) Hp Hq Ht. unfold score.
  pose proof (norm_range _ _ _ Pa). pose proof (norm_range _ _ _ Qa).
  pose proof (norm_range _ _ _ Pb). pose proof (norm_range _ _ _ Qb).
  pose proof (norm_mono (poison a) (poison b) (min_poison x) (max_poison x)
                ltac:(lia) Hp).
  pose proof (norm_mono (plague a) (plague b) (min_plague x) (max_plague x)
                ltac:(lia) Hq).
  pose proof (norm_mono (total a) (total b) (min_total x) (max_total x)
                ltac:(lia) Ht).
  assert (sqrt (norm (poison a) (min_poison x) (max_poison x)
                * norm (plague a) (min_plague x) (max_plague x))
          <= sqrt (norm (poison b) (min_poison x) (max_poison x)
                   * norm (plague b) (min_plague x) (max_plague x)))%R
    by (apply sqrt_le_1_alt; nra).
  lra.
Qed.

(** What the run leaves at a returned reference, read back from the heap. *)
Lemma returned_candidate (h h' : heap) (x : extrema) (armours : list loc)
    (combos : list (list loc)) (l : loc) (s : ArmourSet) :
  extrema_of x (peek h' armours) ->
  (forall i l, armours !! i = Some l ->
     exists combo,
       combos !! i = Some combo
       /\ h' !! l = Some (Obj_ArmourSet (scored x (candidate_at h combo)))) ->
  l ∈ armours -> h' !! l = Some (Obj_ArmourSet s) ->
  within x s /\ weighted_total s = Some (score x s).
Proof.
  intros Hx Hnew Hl Hs. pose proof Hl as Hin.
  apply list_elem_of_lookup_1 in Hl as [i Hi].
  destruct (Hnew i l Hi) as (combo & _ & Ho).
  rewrite Ho in Hs. inversion Hs; subst s. split; [|done].
  apply (extrema_of_within x (peek h' armours)); [done|].
  apply (peek_elem h' armours l _ Hin Ho).
Qed.

(** Within one run, with the default weights, a candidate that has at least
    the poison, the plague and the total of another has at least its
    [weighted_total]. *)
Theorem make_armourset_list_monotone (h : heap) (hs ts ms ls : list loc) :
  catalogs_valid h hs ts ms ls ->
  hs <> [] -> ts <> [] -> ms <> [] -> ls <> [] ->
  exists armours h',
    make_armourset_list hs ts ms ls h = Ok (armours, h')
    /\ forall l1 l2 s1 s2,
         l1 ∈ armours -> l2 ∈ armours ->
         h' !! l1 = Some (Obj_ArmourSet s1) -> h' !! l2 = Some (Obj_ArmourSet s2) ->
         poison s1 <= poison s2 -> plague s1 <= plague s2 -> total s1 <= total s2 ->
         exists w1 w2,
           weighted_total s1 = Some w1 /\ weighted_total s2 = Some w2
           /\ (w1 <= w2)%R.
Proof.
  intros Hv N1 N2 N3 N4.
  destruct (make_armourset_list_post h hs ts ms ls Hv N1 N2 N3 N4)
    as (x & armours & h' & Hm & Hx & _ & _ & Hnew).
  exists armours, h'. split; [exact Hm|].
  intros l1 l2 s1 s2 I1 I2 E1 E2 Hp Hq Ht.
  destruct (returned_candidate h h' x armours _ l1 s1 Hx Hnew I1 E1) as [W1 S1].
  destruct (returned_candidate h h' x armours _ l2 s2 Hx Hnew I2 E2) as [W2 S2].
  exists (score x s1), (score x s2). split; [done|]. split; [done|].
  by apply score_mono.
Qed.

Lemma make_armourset_list_monotone_witness :
  exists armours h',
    make_armourset_list (head module_catalogs) (torso module_catalogs)
                        (arms module_catalogs) (legs module_catalogs) module_heap
    = Ok (armours, h')
    /\ forall l1 l2 s1 s2,
         l1 ∈ armours -> l2 ∈ armours ->
         h' !! l1 = Some (Obj_ArmourSet s1) -> h' !! l2 = Some (Obj_ArmourSet s2) ->
         poison s1 <= poison s2 -> plague s1 <= plague s2 -> total s1 <= total s2 ->
         exists w1 w2,
           weighted_total s1 = Some w1 /\ weighted_total s2 = Some w2
           /\ (w1 <= w2)%R.
Proof.
  on_module_data make_armourset_list_monotone.
Defined.

(** Within one run, with the default weights: a candidate whose poison or
    plague is the least of all candidates loses the geometric term, so its
    [weighted_total] is half its normalised total, at most 0.5, and 0.0 when
    its total is the least too; a candidate that has the greatest poison,
    plague and total scores 1.0 when none of the three ranges is a single
    value. *)
Theorem make_armourset_list_extreme_scores (h : heap) (hs ts ms ls : list loc) :
  catalogs_valid h hs ts ms ls ->
  hs <> [] -> ts <> [] -> ms <> [] -> ls <> [] ->
  exists x armours h',
    make_armourset_list hs ts ms ls h = Ok (armours, h')
    /\ extrema_of x (peek h' armours)
    /\ forall l s,
         l ∈ armours -> h' !! l = Some (Obj_ArmourSet s) ->
         exists w norm_total,
           weighted_total s = Some w
           /\ normalise (total s) (min_total x) (max_total x) = Ok norm_total
           /\ (poison s = min_poison x \/ plague s = min_plague x ->
               w = (0.5 * norm_total)%R /\ (w <= 0.5)%R
               /\ (total s = min_total x -> w = 0%R))
           /\ (poison s = max_poison x -> plague s = max_plague x ->
               total s = max_total x ->
               min_poison x < max_poison x -> min_plague x < max_plague x ->
               min_total x < max_total x ->
               w = 1%R).
Proof.
  intros Hv N1 N2 N3 N4.
  destruct (make_armourset_list_post h hs ts ms ls Hv N1 N2 N3 N4)
    as (x & armours & h' & Hm & Hx & _ & _ & Hnew).
  exists x, armours, h'. split; [exact Hm|]. split; [exact Hx|].
  intros l s Hl Hs.
  destruct (returned_candidate h h' x armours _ l s Hx Hnew Hl Hs)
    as [(Wp & Wq & Wt) Hw].
  exists (score x s), (norm (total s) (min_total x) (max_total x)).
  split; [exact Hw|]. split; [apply normalise_norm|].
  pose proof (norm_range _ _ _ Wt) as Rt.
  unfold score. split.
  - intros Hmin.
    assert (sqrt (norm (poison s) (min_poison x) (max_poison x)
                  * norm (plague s) (min_plague x) (max_plague x)) = 0%R) as ->.
    { destruct Hmin as [-> | ->]; rewrite norm_at_min;
        [rewrite Rmult_0_l|rewrite Rmult_0_r]; apply sqrt_0. }
    split; [lra|]. split; [lra|].
    intros ->. rewrite norm_at_min. lra.
  - intros -> -> -> Lp Lq Lt. rewrite !norm_at_max by done.
    rewrite Rmult_1_l, sqrt_1. lra.
Qed.

Lemma make_armourset_list_extreme_scores_witness :
  exists x armours h',
    make_armourset_list (head module_catalogs) (torso module_catalogs)
                        (arms module_catalogs) (legs module_catalogs) module_heap
    = Ok (armours, h')
    /\ extrema_of x (peek h' armours)
    /\ forall l s,
         l ∈ armours -> h' !! l = Some (Obj_ArmourSet s) ->
         exists w norm_total,
           weighted_total s = Some w
           /\ normalise (total s) (min_total x) (max_total x) = Ok norm_total
           /\ (poison s = min_poison x \/ plague s = min_plague x ->
               w = (0.5 * norm_total)%R /\ (w <= 0.5)%R
               /\ (total s = min_total x -> w = 0%R))
           /\ (poison s = max_poison x -> plague s = max_plague x ->
               total s = max_total x ->
               min_poison x < max_poison x -> min_plague x < max_plague x ->
               min_total x < max_total x ->
               w = 1%R).
Proof.
  on_module_data make_armourset_list_extreme_scores.
Defined.

(** With one item in every catalog there is one candidate, every range is
    a single value, and the candidate's [weighted_total] is 0.0. *)
Theorem make_armourset_list_single (h : heap) (p1 p2 p3 p4 : loc) :
  catalogs_valid h [p1] [p2] [p3] [p4] ->
  exists l s h',
    make_armourset_list [p1] [p2] [p3] [p4] h = Ok ([l], h')
    /\ h' !! l = Some (Obj_ArmourSet s)
    /\ parts s = [p1; p2; p3; p4]
    /\ weighted_total s = Some 0%R.
Proof.
  intros Hv.
  destruct (make_armourset_list_spec h [p1] [p2] [p3] [p4] Hv
              ltac:(discriminate) ltac:(discriminate)
              ltac:(discriminate) ltac:(discriminate))
    as (x & Hx & _ & _ & Hm).
  unfold candidates in *. rewrite product_four in *. simpl in *.
  set (c := candidate_at h [p1; p2; p3; p4]) in *.
  destruct Hx as ((I1 & _) & (I2 & _) & (I3 & _) & (I4 & _) & (I5 & _) & (I6 & _)).
  apply list_elem_of_singleton in I1, I2, I3, I4, I5, I6.
  exists (length h), (scored x c), (h ++ [Obj_ArmourSet (scored x c)]).
  split; [exact Hm|]. split; [by apply list_lookup_middle|]. split; [done|].
  simpl. f_equal. unfold score.
  rewrite I1, I3, I5, !norm_at_min, Rmult_0_l, sqrt_0. lra.
Qed.

Lemma make_armourset_list_single_witness :
  exists l s h',
    make_armourset_list [0%nat] [4%nat] [7%nat] [10%nat] module_heap = Ok ([l], h')
    /\ h' !! l = Some (Obj_ArmourSet s)
    /\ parts s = [0; 4; 7; 10]%nat
    /\ weighted_total s = Some 0%R.
Proof.
  apply (make_armourset_list_single module_heap 0 4 7 10).
  repeat split; apply Forall_forall; intros l Hl;
    apply list_elem_of_singleton in Hl as ->; unfold valid;
    change (length module_heap) with 13%nat; lia.
Defined.

(** The candidates are new objects: the returned references are pairwise
    distinct, name no object of the heap before the call and so none of the
    catalogs, and the heap grows by exactly one object per candidate. *)
Theorem make_armourset_list_fresh (h : heap) (hs ts ms ls : list loc) :
  catalogs_valid h hs ts ms ls ->
  hs <> [] -> ts <> [] -> ms <> [] -> ls <> [] ->
  exists armours h',
    make_armourset_list hs ts ms ls h = Ok (armours, h')
    /\ NoDup armours
    /\ length h' = (length h + length armours)%nat
    /\ forall l, l ∈ armours ->
         ~ valid h l /\ valid h' l /\ l ∉ hs ++ ts ++ ms ++ ls.
Proof.
  intros Hv N1 N2 N3 N4.
  destruct (make_armourset_list_spec h hs ts ms ls Hv N1 N2 N3 N4)
    as (x & _ & _ & _ & Hm).
  eexists _, _. split; [exact Hm|]. split; [apply NoDup_seq|].
  split; [by rewrite length_app, length_map, length_seq|].
  intros l Hl. apply list_elem_of_In, in_seq in Hl. unfold valid.
  split; [lia|]. split; [rewrite length_app, length_map; lia|].
  intros Hin. destruct Hv as (V1 & V2 & V3 & V4).
  rewrite Forall_forall in V1, V2, V3, V4. unfold valid in *.
  rewrite !elem_of_app in Hin.
  destruct Hin as [Hi|[Hi|[Hi|Hi]]];
    [apply V1 in Hi|apply V2 in Hi|apply V3 in Hi|apply V4 in Hi]; lia.
Qed.

Lemma make_armourset_list_fresh_witness :
  exists armours h',
    make_armourset_list (head module_catalogs) (torso module_catalogs)
                        (arms module_catalogs) (legs module_catalogs) module_heap
    = Ok (armours, h')
    /\ NoDup armours
    /\ length h' = (length module_heap + length armours)%nat
    /\ forall l, l ∈ armours ->
         ~ valid module_heap l /\ valid h' l
         /\ l ∉ head module_catalogs ++ torso module_catalogs
                ++ arms module_catalogs ++ legs module_catalogs.
Proof.
  on_module_data make_armourset_list_fresh.
Defined.

(** Whatever the live, non-empty catalogs, the list [make_armourset_list]
    returns can be written: [write_to_csv] ends without an exception, having
    written the header and one row per combination. *)
Theorem make_armourset_list_then_write_to_csv (h : heap) (hs ts ms ls : list loc) :
  catalogs_valid h hs ts ms ls ->
  hs <> [] -> ts <> [] -> ms <> [] -> ls <> [] ->
  exists armours h' rows,
    make_armourset_list hs ts ms ls h = Ok (armours, h')
    /\ write_to_csv armours h'
       = (map V_str [ "name"; "physical"; "fire"; "bleed"; "poison"; "plague";
                      "total"; "weighted_total" ]%string :: rows, Ok tt)
    /\ length rows = (length hs * length ts * length ms * length ls)%nat
    /\ Forall2 (row_of h') armours rows.
Proof.
  intros Hv N1 N2 N3 N4.
  destruct (make_armourset_list_post h hs ts ms ls Hv N1 N2 N3 N4)
    as (x & armours & h' & Hm & _ & Hlen & _ & Hnew).
  assert (Forall (is_scored h') armours) as Hs.
  { apply Forall_forall. intros l Hl. apply list_elem_of_lookup_1 in Hl as [i Hi].
    destruct (Hnew i l Hi) as (combo & _ & Ho).
    eexists _, _. split; [exact Ho|reflexivity]. }
  destruct (write_rows_scored h' armours
              ([] ++ [map V_str (map f_name (List.filter f_repr fields_ArmourSet))]) Hs)
    as (rows & Hw & Hall).
  exists armours, h', rows. split; [exact Hm|]. split; [exact Hw|].
  split; [|exact Hall].
  apply Forall2_length in Hall. by rewrite <- Hall, Hlen, product_length.
Qed.

Lemma make_armourset_list_then_write_to_csv_witness :
  exists armours h' rows,
    make_armourset_list (head module_catalogs) (torso module_catalogs)
                        (arms module_catalogs) (legs module_catalogs) module_heap
    = Ok (armours, h')
    /\ write_to_csv armours h'
       = (map V_str [ "name"; "physical"; "fire"; "bleed"; "poison"; "plague";
                      "total"; "weighted_total" ]%string :: rows, Ok tt)
    /\ length rows = 108%nat
    /\ Forall2 (row_of h') armours rows.
Proof.
  on_module_data make_armourset_list_then_write_to_csv.
Defined.

(** ** Writing candidates that are not all scored *)

Lemma write_rows_app (h : heap) (pre rest : list loc) :
  forall file : list csv_row,
  Forall (is_scored h) pre ->
  exists rows,
    Forall2 (row_of h) pre rows
    /\ write_rows h (map f_name (List.filter f_repr fields_ArmourSet)) (pre ++ rest) file
       = write_rows h (map f_name (List.filter f_repr fields_ArmourSet)) rest
                    (file ++ rows).
Proof.
  rewrite field_names_are.
  induction pre as [|l pre IH]; intros file Hs.
  { exists []. split; [constructor|]. by rewrite app_nil_r. }
  apply Forall_cons in Hs as [(s & w & Hl & Hw) Hs].
  destruct (IH (file ++ [cells s w]) Hs) as (rows & Hall & Hrows).
  exists (cells s w :: rows). split.
  - constructor; [by exists s, w|done].
  - simpl. rewrite Hl. simpl. rewrite Hw. simpl.
    rewrite <- app_assoc in Hrows. exact Hrows.
Qed.

Lemma write_rows_unscored (h : heap) (l : loc) (o : object) (post : list loc)
    (file : list csv_row) :
  h !! l = Some o -> ~ is_scored h l ->
  write_rows h (map f_name (List.filter f_repr fields_ArmourSet)) (l :: post) file
  = (file, Raise AttributeError).
Proof.
  intros Hl Hn. rewrite field_names_are. simpl. rewrite Hl.
  destruct o as [a|s]; simpl; [done|].
  destruct (weighted_total s) as [w|] eqn:Hw; [|done].
  exfalso. apply Hn. by exists s, w.
Qed.

(** [write_to_csv] stops at the first object of the list that is not a
    scored [ArmourSet] (a plain [Armour], or an [ArmourSet] whose
    [weighted_total] was never assigned) with [AttributeError]: the file then
    holds the header and the rows of the candidates before it, and nothing
    of that object or of those after it. *)
Theorem write_to_csv_unscored (h : heap) (pre post : list loc) (l : loc) (o : object) :
  Forall (is_scored h) pre ->
  h !! l = Some o -> ~ is_scored h l ->
  exists rows,
    write_to_csv (pre ++ l :: post) h
    = (map V_str [ "name"; "physical"; "fire"; "bleed"; "poison"; "plague";
                   "total"; "weighted_total" ]%string :: rows,
       Raise AttributeError)
    /\ Forall2 (row_of h) pre rows.
Proof.
  intros Hs Hl Hn. unfold write_to_csv, writeheader.
  destruct (write_rows_app h pre (l :: post)
              ([] ++ [map V_str (map f_name (List.filter f_repr fields_ArmourSet))]) Hs)
    as (rows & Hall & ->).
  exists rows. split; [|exact Hall].
  by rewrite (write_rows_unscored h l o post _ Hl Hn).
Qed.

Lemma write_to_csv_unscored_witness :
  let scored := mkArmourSet (Armour__init__ "Gold Mask" 2 8 16 16 16) [] (Some 0%R) in
  let fresh := ArmourSet__init__ "Black Boots" 15 10 9 37 0 [] in
  let h := [Obj_ArmourSet scored; Obj_ArmourSet fresh] in
  exists rows,
    write_to_csv ([0%nat] ++ 1%nat :: [0%nat]) h
    = (map V_str [ "name"; "physical"; "fire"; "bleed"; "poison"; "plague";
                   "total"; "weighted_total" ]%string :: rows,
       Raise AttributeError)
    /\ Forall2 (row_of h) [0%nat] rows.
Proof.
  intros scored fresh h.
  apply (write_to_csv_unscored h [0%nat] [0%nat] 1%nat (Obj_ArmourSet fresh)).
  - constructor; [|constructor]. exists scored, 0%R. split; reflexivity.
  - reflexivity.
  - intros (s & w & Hl & Hw). inversion Hl; subst s. discriminate.
Defined.

(** Every cell [write_to_csv] writes for a candidate is the attribute of
    that candidate that the header names in the same column. *)
Theorem write_to_csv_cells (armours : list loc) (h : heap) :
  let columns :=
    [ "name"; "physical"; "fire"; "bleed"; "poison"; "plague"; "total";
      "weighted_total" ]%string in
  Forall (is_scored h) armours ->
  exists rows,
    write_to_csv armours h = (map V_str columns :: rows, Ok tt)
    /\ Forall2 (fun l row =>
                  exists o, h !! l = Some o
                            /\ Forall2 (fun column cell => getattr o column = Ok cell)
                                       columns row)
               armours rows.
Proof.
  intros columns Hs.
  destruct (write_rows_scored h armours
              ([] ++ [map V_str (map f_name (List.filter f_repr fields_ArmourSet))]) Hs)
    as (rows & Hw & Hall).
  exists rows. split; [exact Hw|].
  eapply Forall2_impl; [exact Hall|].
  intros l row (s & w & Hl & Hwt & ->).
  exists (Obj_ArmourSet s). split; [exact Hl|].
  unfold columns, cells. repeat constructor. simpl. by rewrite Hwt.
Qed.

Lemma write_to_csv_cells_witness :
  let s := mkArmourSet (Armour__init__ "Gold Mask" 2 8 16 16 16) [] (Some 0%R) in
  exists rows,
    write_to_csv [0%nat] [Obj_ArmourSet s]
    = (map V_str [ "name"; "physical"; "fire"; "bleed"; "poison"; "plague"; "total";
                   "weighted_total" ]%string :: rows, Ok tt)
    /\ Forall2 (fun l row =>
                  exists o, [Obj_ArmourSet s] !! l = Some o
                            /\ Forall2 (fun column cell => getattr o column = Ok cell)
                                 [ "name"; "physical"; "fire"; "bleed"; "poison";
                                   "plague"; "total"; "weighted_total" ]%string row)
               [0%nat] rows.
Proof.
  intros s.
  apply (write_to_csv_cells [0%nat] [Obj_ArmourSet s]).
  constructor; [|constructor].
  exists s, 0%R. split; reflexivity.
Defined.

(** ** Calling [make_armourset_list] again *)

Lemma is_min_unique (m m' : Z) (xs : list Z) : is_min m xs -> is_min m' xs -> m = m'.
Proof. intros [I1 L1] [I2 L2]. specialize (L1 _ I2). specialize (L2 _ I1). lia. Qed.

Lemma is_max_unique (m m' : Z) (xs : list Z) : is_max m xs -> is_max m' xs -> m = m'.
Proof. intros [I1 L1] [I2 L2]. specialize (L1 _ I2). specialize (L2 _ I1). lia. Qed.

Lemma extrema_of_unique (x x' : extrema) (cs : list Armour) :
  extrema_of x cs -> extrema_of x' cs -> x = x'.
Proof.
  intros (A1 & A2 & A3 & A4 & A5 & A6) (B1 & B2 & B3 & B4 & B5 & B6).
  destruct x, x'; simpl in *. f_equal;
    eauto using is_min_unique, is_max_unique.
Qed.

Lemma catalogs_valid_app (h e : heap) (hs ts ms ls : list loc) :
  catalogs_valid h hs ts ms ls -> catalogs_valid (h ++ e) hs ts ms ls.
Proof.
  assert (forall xs, Forall (valid h) xs -> Forall (valid (h ++ e)) xs) as Hmono.
  { intros xs Hx. eapply Forall_impl; [exact Hx|].
    intros l. unfold valid. rewrite length_app. lia. }
  intros (V1 & V2 & V3 & V4). repeat split; by apply Hmono.
Qed.

Lemma candidates_app (h e : heap) (hs ts ms ls : list loc) :
  catalogs_valid h hs ts ms ls ->
  candidates (h ++ e) hs ts ms ls = candidates h hs ts ms ls.
Proof.
  intros Hv. unfold candidates. apply map_ext_in. intros c Hc.
  unfold candidate_at. rewrite peek_app; [done|].
  pose proof (product_valid h hs ts ms ls Hv) as Hp.
  rewrite Forall_forall in Hp. apply Hp. by apply list_elem_of_In.
Qed.

(** A second call on the heap the first one left returns new candidates
    that are equal, field by field and score included, to those of the first
    call, in the same order, and leaves every object of the first call as it
    was. *)
Theorem make_armourset_list_again (h : heap) (hs ts ms ls : list loc) :
  catalogs_valid h hs ts ms ls ->
  hs <> [] -> ts <> [] -> ms <> [] -> ls <> [] ->
  exists armours1 h1 armours2 h2,
    make_armourset_list hs ts ms ls h = Ok (armours1, h1)
    /\ make_armourset_list hs ts ms ls h1 = Ok (armours2, h2)
    /\ (forall l, valid h1 l -> h2 !! l = h1 !! l)
    /\ (forall l, l ∈ armours1 -> l ∉ armours2)
    /\ Forall2 (fun l1 l2 =>
                  exists s, h2 !! l1 = Some (Obj_ArmourSet s)
                            /\ h2 !! l2 = Some (Obj_ArmourSet s))
               armours1 armours2.
Proof.
  intros Hv N1 N2 N3 N4.
  destruct (make_armourset_list_spec h hs ts ms ls Hv N1 N2 N3 N4)
    as (x & Hx & _ & _ & Hm).
  set (cs := candidates h hs ts ms ls) in *.
  set (h1 := h ++ map (fun s => Obj_ArmourSet (scored x s)) cs) in *.
  pose proof (catalogs_valid_app h (map (fun s => Obj_ArmourSet (scored x s)) cs)
                hs ts ms ls Hv) as Hv1.
  fold h1 in Hv1.
  assert (candidates h1 hs ts ms ls = cs) as Hcs
    by (unfold h1; by apply candidates_app).
  destruct (make_armourset_list_spec h1 hs ts ms ls Hv1 N1 N2 N3 N4)
    as (x' & Hx' & _ & _ & Hm').
  rewrite Hcs in Hx', Hm'.
  assert (x' = x) as -> by (by apply (extrema_of_unique _ _ (map as_Armour cs))).
  exists (seq (length h) (length cs)), h1, (seq (length h1) (length cs)),
         (h1 ++ map (fun s => Obj_ArmourSet (scored x s)) cs).
  assert (length h1 = (length h + length cs)%nat) as Hlen
    by (unfold h1; by rewrite length_app, length_map).
  split; [exact Hm|]. split; [exact Hm'|]. split; [|split].
  - intros l Hl. by apply lookup_app_l.
  - intros l I1 I2. apply list_elem_of_In, in_seq in I1.
    apply list_elem_of_In, in_seq in I2. lia.
  - apply Forall2_same_length_lookup_2; [by rewrite !length_seq|].
    intros i l1 l2 E1 E2.
    apply lookup_seq in E1 as [-> Hi]. apply lookup_seq in E2 as [-> _].
    destruct (lookup_lt_is_Some_2 cs i Hi) as [s Hs].
    exists (scored x s). split.
    + rewrite lookup_app_l by lia. unfold h1.
      rewrite lookup_app_r by lia.
      replace (length h + i - length h)%nat with i by lia.
      by rewrite lookup_map, Hs.
    + rewrite lookup_app_r by lia.
      replace (length h1 + i - length h1)%nat with i by lia.
      by rewrite lookup_map, Hs.
Qed.

Lemma make_armourset_list_again_witness :
  exists armours1 h1 armours2 h2,
    make_armourset_list (head module_catalogs) (torso module_catalogs)
                        (arms module_catalogs) (legs module_catalogs) module_heap
    = Ok (armours1, h1)
    /\ make_armourset_list (head module_catalogs) (torso module_catalogs)
                           (arms module_catalogs) (legs module_catalogs) h1
       = Ok (armours2, h2)
    /\ (forall l, valid h1 l -> h2 !! l = h1 !! l)
    /\ (forall l, l ∈ armours1 -> l ∉ armours2)
    /\ Forall2 (fun l1 l2 =>
                  exists s, h2 !! l1 = Some (Obj_ArmourSet s)
                            /\ h2 !! l2 = Some (Obj_ArmourSet s))
               armours1 armours2.
Proof.
  on_module_data make_armourset_list_again.
Defined.

(** ** Arguments outside the intended ranges *)



(** A negative poison weight makes [get_geometric_mean] raise
    [ZeroDivisionError] for a candidate whose poison is the minimum and whose
    plague and total lie between their extrema: its normalised poison is
    0.0, and 0.0 to a negative power raises, before anything else can. *)
Theorem get_geometric_mean_negative_weight (s : ArmourSet)
    (max_po min_pl max_pl min_to max_to : Z) (wp wq : R) :
  min_pl <= plague s <= max_pl ->
  min_to <= total s <= max_to ->
  (wp < 0)%R ->
  get_geometric_mean s (poison s) max_po min_pl max_pl min_to max_to wp wq
  = Raise ZeroDivisionError.
Proof.
  intros _ _ Hwp. unfold get_geometric_mean. rewrite !normalise_norm. simpl.
  rewrite norm_at_min. unfold geometric_mean, float_pow.
  destruct (Req_dec_T wp 0); [lra|].
  destruct (Req_dec_T 0 0); [|done].
  destruct (Rlt_dec wp 0); [done|lra].
Qed.

Lemma get_geometric_mean_negative_weight_witness :
  get_geometric_mean (ArmourSet__init__ "set" 1 2 3 4 5 []) 4 10 0 10 0 20 (-1) 1
  = Raise ZeroDivisionError.
Proof.
  apply (get_geometric_mean_negative_weight (ArmourSet__init__ "set" 1 2 3 4 5 [])
           10 0 10 0 20 (-1) 1);
    [vm_compute; split; discriminate | vm_compute; split; discriminate | lra].
Defined.
